(* ===================================================================== *)
(*  Welcome-email sender (email_send/emailsend.py): a shallow embedding  *)
(*  of the script and the properties of its specification.               *)
(*                                                                        *)
(*  The script is sequential Python talking to three outside parties: a  *)
(*  template file, Gmail's SMTP relay and a MongoDB collection.  Every   *)
(*  function of the script is a computation in a state-and-exception     *)
(*  monad; what the outside parties answer is read from a [world].       *)
(* ===================================================================== *)

From Stdlib Require Import ZArith String Ascii DecimalString.
From stdpp Require Import gmap strings list fin_maps.

Open Scope string_scope.
Open Scope list_scope.

(* --------------------------------------------------------------------- *)
(** * Python values and documents                                         *)
(* --------------------------------------------------------------------- *)

(** The BSON/Python values a user document holds in this program:
    [None], booleans, integers and strings. *)
Inductive value :=
| VNull
| VBool (b : bool)
| VInt (z : Z)
| VStr (s : string).

(** Truth value of an object, as tested by [if not x]. *)
Definition truthy (v : value) : bool :=
  match v with
  | VNull => false
  | VBool b => b
  | VInt z => negb (z =? 0)%Z
  | VStr s => negb (String.eqb s "")
  end.

Definition decimal (z : Z) : string := NilZero.string_of_int (Z.to_int z).

(** [str(v)], which is also [format(v, "")]: what an f-string and an
    unadorned replacement field print. *)
Definition py_str (v : value) : string :=
  match v with
  | VNull => "None"
  | VBool true => "True"
  | VBool false => "False"
  | VInt z => decimal z
  | VStr s => s
  end.

(** A document is a dictionary from field names to values; its [_id] is
    the key under which the collection holds it, so two documents of one
    collection never share an [_id]. *)
Abbreviation document := (gmap string value).
Abbreviation oid := N.
Abbreviation collection := (gmap N (gmap string value)).

(** [d.get(k)] and [d.get(k, dflt)]. *)
Definition dict_get (d : document) (k : string) : value :=
  default VNull (d !! k).
Definition dict_get_or (d : document) (k : string) (dflt : value) : value :=
  default dflt (d !! k).

(** [os.getenv] results are tested with [not]: unset and empty both fail. *)
Definition env_truthy (o : option string) : bool :=
  match o with
  | Some s => negb (String.eqb s "")
  | None => false
  end.

(** Text is held as the bytes of its UTF-8 encoding, so a character
    outside ASCII shows as bytes from 128 on. *)
Fixpoint is_ascii (s : string) : bool :=
  match s with
  | EmptyString => true
  | String c s' => (nat_of_ascii c <? 128)%nat && is_ascii s'
  end.

(** A [str] of ASCII characters: what can be encoded for the wire. *)
Definition ascii_text (v : value) : bool :=
  match v with
  | VStr s => is_ascii s
  | _ => false
  end.

(* --------------------------------------------------------------------- *)
(** * Exceptions, events, the world                                       *)
(* --------------------------------------------------------------------- *)

(** [SystemExit] and [KeyboardInterrupt] derive from [BaseException] only;
    everything else the script can meet is an instance of [Exception] and
    is represented by the text [str(e)] prints. *)
Inductive exn :=
| SystemExit (code : Z)
| KeyboardInterrupt
| PyError (msg : string).

Inductive level := INFO | WARNING | ERROR.

(** How one blocking call ends: it completes, an [Exception] leaves it,
    or a [KeyboardInterrupt] does (the user interrupted the process
    meanwhile). *)
Inductive outcome :=
| Done
| Fails (msg : string)
| Interrupted.

(** What [open(TEMPLATE_PATH).read()] meets. *)
Inductive file_outcome :=
| Content (text : string)
| NotFound
| Unreadable (msg : string).

Record email_message := {
  msg_from_name : string;
  msg_from_addr : string;
  msg_subject : string;
  msg_to : value;
  msg_html : string
}.

(** The observable trace.  [EvSendCall] marks the entry into
    [send_welcome_email]; the other events are the calls that leave the
    process, with the answer they got. *)
Inductive event :=
| EvLog (l : level) (text : string)
| EvSendCall (to_email first_name : value)
| EvReadTemplate (path : string)
| EvSmtp (m : email_message) (r : outcome)
| EvConnect (uri : string) (db : option string) (r : outcome)
| EvCount (r : outcome)
| EvFind (r : outcome)
| EvUpdate (id : oid) (r : outcome)
| EvSleep (secs : Z) (r : outcome).

(** The result of [str.format] on the template. *)
Inductive render_result :=
| Rendered (html : string)
| RenderError (msg : string).

(** Everything the script does not decide itself.  Outside answers are
    indexed by the number of blocking calls made so far, so a world fixes
    one complete behaviour of file system, relay, store and keyboard. *)
Record world := {
  getenv : string -> option string;      (* environment after load_dotenv *)
  script_dir : string;                   (* os.path.dirname(__file__) *)
  template_file : nat -> file_outcome;
  now_year : nat -> Z;                   (* datetime.now().year *)
  io : nat -> outcome;
  (* what SMTP.__exit__ raises when the session is left, if anything: the
     relay answers QUIT with a code other than 221, or the line fails *)
  session_exit : nat -> option string;
  (* whether the store applied the write of an update_one that raised *)
  update_applied : nat -> bool;
  (* str(e) of the error that encoding a value in ASCII raises: a
     UnicodeEncodeError for text with a character outside ASCII, an
     AttributeError for a value that is no str *)
  encode_error : value -> string;
  (* the OverflowError of time.sleep for a length it cannot represent *)
  sleep_overflow : Z -> option string;
  (* replacement fields with a conversion, a format spec, an attribute or
     an index, and field names that an error message would not show as
     written, are not interpreted here: the world says what they give *)
  format_other : string -> value -> Z -> render_result
}.

Record state := {
  store : collection;
  trace : list event;
  tick : nat
}.

(* --------------------------------------------------------------------- *)
(** * The monad                                                           *)
(* --------------------------------------------------------------------- *)

(** A computation returns, raises, or is cut because the model's fuel for
    [while True] ran out ([OutOfFuel]: the process is still running). *)
Inductive result (A : Type) :=
| Ret (a : A)
| Raise (e : exn)
| OutOfFuel.
Arguments Ret {A} a.
Arguments Raise {A} e.
Arguments OutOfFuel {A}.

Definition M (A : Type) : Type := state -> result A * state.

Definition ret {A} (a : A) : M A := fun st => (Ret a, st).
Definition raise {A} (e : exn) : M A := fun st => (Raise e, st).

Definition bind {A B} (m : M A) (k : A -> M B) : M B :=
  fun st =>
    match m st with
    | (Ret a, st1) => k a st1
    | (Raise e, st1) => (Raise e, st1)
    | (OutOfFuel, st1) => (OutOfFuel, st1)
    end.

Declare Scope py_scope.
Delimit Scope py_scope with py.
Notation "x <- c1 ;; c2" := (bind c1 (fun x => c2))
  (at level 100, c1 at next level, right associativity) : py_scope.
Notation "c1 ;; c2" := (bind c1 (fun _ => c2))
  (at level 100, right associativity) : py_scope.
Open Scope py_scope.

(** [try: m  except ...: h e].  The handler table [h] answers [None] for
    an exception no [except] clause matches, which then propagates. *)
Definition try_except {A} (m : M A) (h : exn -> option (M A)) : M A :=
  fun st =>
    match m st with
    | (Raise e, st1) =>
        match h e with
        | Some handler => handler st1
        | None => (Raise e, st1)
        end
    | other => other
    end.

(** [except Exception as e]. *)
Definition on_Exception {A} (h : string -> M A) (e : exn) : option (M A) :=
  match e with
  | PyError msg => Some (h msg)
  | _ => None
  end.

Definition emit (e : event) : M unit :=
  fun st => (Ret tt, {| store := store st; trace := trace st ++ [e]; tick := tick st |}).

Definition next_tick : M nat :=
  fun st => (Ret (tick st), {| store := store st; trace := trace st; tick := S (tick st) |}).

Definition get_store : M collection := fun st => (Ret (store st), st).

Definition set_store (c : collection) : M unit :=
  fun st => (Ret tt, {| store := c; trace := trace st; tick := tick st |}).

(** The [logging] calls: one trace line each; handlers swallow their own
    errors, so logging never raises. *)
Definition logging (l : level) (text : string) : M unit := emit (EvLog l text).

Definition sys_exit {A} (code : Z) : M A := raise (SystemExit code).

(** A blocking call whose answer is [r]. *)
Definition answer (r : outcome) : M unit :=
  match r with
  | Done => ret tt
  | Fails msg => raise (PyError msg)
  | Interrupted => raise KeyboardInterrupt
  end.

(* --------------------------------------------------------------------- *)
(** * [str.format] on the template                                        *)
(* --------------------------------------------------------------------- *)

(** The scan of CPython's format-string iterator, on the bytes of the
    UTF-8 text: literal text with the escapes [{{] and [}}], and
    replacement fields [{name}] that are looked up among the keyword
    arguments.  A field that holds ['!'], [':'], ['.'], ['['] or a
    non-ASCII byte is outside this fragment and yields [None]. *)

Definition beyond_fragment (c : ascii) : bool :=
  Ascii.eqb c "!" || Ascii.eqb c ":" || Ascii.eqb c "." || Ascii.eqb c "["
  || (128 <=? nat_of_ascii c)%nat.

Definition is_digit (c : ascii) : bool :=
  (48 <=? nat_of_ascii c)%nat && (nat_of_ascii c <=? 57)%nat.

Fixpoint all_digits (s : string) : bool :=
  match s with
  | EmptyString => true
  | String c s' => is_digit c && all_digits s'
  end.

Fixpoint digits_value (acc : Z) (s : string) : Z :=
  match s with
  | EmptyString => acc
  | String c s' => digits_value (10 * acc + (Z.of_nat (nat_of_ascii c) - 48))%Z s'
  end.

(** A field name that an error message shows as it is written: [repr]
    puts a name of printable ASCII characters, none of them a quote or a
    backslash, between single quotes unchanged, and a numeric name of at
    most nine digits fits an index on every platform. *)
Definition shown_as_is (c : ascii) : bool :=
  (32 <=? nat_of_ascii c)%nat && (nat_of_ascii c <=? 126)%nat
  && negb (Ascii.eqb c "'") && negb (Ascii.eqb c "\").

Fixpoint all_shown_as_is (s : string) : bool :=
  match s with
  | EmptyString => true
  | String c s' => shown_as_is c && all_shown_as_is s'
  end.

Definition ordinary_name (name : string) : bool :=
  all_shown_as_is name
  && (negb (all_digits name) || (String.length name <=? 9)%nat).

(** The object a field name denotes, or the text of the error of the
    lookup.  The call passes keyword arguments only, so an empty or
    numeric name has no positional argument to pick and any other unknown
    name is a [KeyError].  A name that is not ordinary (the error would
    show it escaped, or the number is too long for an index) is outside
    the fragment and yields [None]. *)
Definition field_value (kw : string -> option string) (name : string)
  : option (string + string) :=
  if negb (ordinary_name name) then None
  else if String.eqb name "" then
    Some (inr "Replacement index 0 out of range for positional args tuple")
  else if all_digits name then
    Some (inr ("Replacement index " +:+ decimal (digits_value 0 name)
               +:+ " out of range for positional args tuple"))
  else
    match kw name with
    | Some text => Some (inl text)
    | None => Some (inr ("'" +:+ name +:+ "'"))
    end.

Definition put (c : ascii) (r : option render_result) : option render_result :=
  match r with
  | Some (Rendered s) => Some (Rendered (String c s))
  | other => other
  end.

Definition put_text (t : string) (r : option render_result) : option render_result :=
  match r with
  | Some (Rendered s) => Some (Rendered (t +:+ s))
  | other => other
  end.

Fixpoint format_from (kw : string -> option string) (field : option string)
    (s : string) : option render_result :=
  match s with
  | EmptyString =>
      match field with
      | None => Some (Rendered "")
      | Some _ => Some (RenderError "expected '}' before end of string")
      end
  | String c rest =>
      match field with
      | None =>
          if Ascii.eqb c "{" then
            match rest with
            | EmptyString =>
                Some (RenderError "Single '{' encountered in format string")
            | String c' rest' =>
                if Ascii.eqb c' "{" then put "{" (format_from kw None rest')
                else format_from kw (Some "") rest
            end
          else if Ascii.eqb c "}" then
            match rest with
            | EmptyString =>
                Some (RenderError "Single '}' encountered in format string")
            | String c' rest' =>
                if Ascii.eqb c' "}" then put "}" (format_from kw None rest')
                else Some (RenderError "Single '}' encountered in format string")
            end
          else put c (format_from kw None rest)
      | Some name =>
          if Ascii.eqb c "}" then
            match field_value kw name with
            | Some (inl text) => put_text text (format_from kw None rest)
            | Some (inr msg) => Some (RenderError msg)
            | None => None
            end
          else if Ascii.eqb c "{" then
            Some (RenderError "unexpected '{' in field name")
          else if beyond_fragment c then None
          else format_from kw (Some (name +:+ String c "")) rest
      end
  end.

(** The keyword arguments of the one call in the script:
    [format(first_name=first_name, year=year)]. *)
Definition template_kwargs (first_name : value) (year : Z) (name : string)
  : option string :=
  if String.eqb name "first_name" then Some (py_str first_name)
  else if String.eqb name "year" then Some (decimal year)
  else None.

Definition str_format (w : world) (template : string) (first_name : value)
    (year : Z) : render_result :=
  match format_from (template_kwargs first_name year) None template with
  | Some r => r
  | None => format_other w template first_name year
  end.

(** [os.path.join] of a directory and a relative component. *)
Fixpoint ends_with_slash (s : string) : bool :=
  match s with
  | EmptyString => false
  | String c EmptyString => Ascii.eqb c "/"
  | String _ s' => ends_with_slash s'
  end.

Definition path_join (dir name : string) : string :=
  if String.eqb dir "" || ends_with_slash dir then dir +:+ name
  else dir +:+ "/" +:+ name.

(* --------------------------------------------------------------------- *)
(** * The script                                                          *)
(* --------------------------------------------------------------------- *)

Record args := {
  test : bool;
  test_email : option string;
  interval : Z
}.

(** What [parser.parse_args()] makes of [sys.argv]: a namespace, or the
    exits argparse performs itself ([-h] with status 0, a usage error
    with status 2). *)
Inductive cli :=
| Parsed (a : args)
| HelpRequested
| UsageError.

(** The query of [process_users]:
    [{'$or': [{'welcome_email_sent': {'$exists': False}},
              {'welcome_email_sent': False}]}]. *)
Definition query (d : document) : bool :=
  match d !! "welcome_email_sent" with
  | None => true
  | Some (VBool false) => true
  | Some _ => false
  end.

Definition find (c : collection) : list (oid * document) :=
  filter (fun user => query user.2 = true) (map_to_list c).

(** [{'$set': {'welcome_email_sent': True}}] on the document [{'_id': id}]. *)
Definition set_sent (id : oid) (c : collection) : collection :=
  alter (insert "welcome_email_sent" (VBool true)) id c.

Fixpoint for_each {A} (l : list A) (body : A -> M unit) : M unit :=
  match l with
  | [] => ret tt
  | x :: l' => body x ;; for_each l' body
  end.

(** [while True: body], cut after [fuel] rounds. *)
Fixpoint while_true (fuel : nat) (body : M unit) : M unit :=
  match fuel with
  | O => fun st => (OutOfFuel, st)
  | S fuel' => body ;; while_true fuel' body
  end.

(** Whether the store holds the write of an [update_one] call. *)
Definition written (r : outcome) (applied : bool) : bool :=
  match r with
  | Done => true
  | _ => applied
  end.

Section Script.
Context (w : world).

Definition MONGODB_URI : option string := getenv w "MONGODB_URI".
Definition MONGODB_DATABASE : option string := getenv w "MONGODB_DATABASE".
Definition GMAIL_USER : option string := getenv w "GMAIL_USER".
Definition GMAIL_APP_PASSWORD : option string := getenv w "GMAIL_APP_PASSWORD".
Definition FROM_NAME : string := default "Your App" (getenv w "FROM_NAME").

(** The module-level checks that run before [main]. *)
Definition validate_environment : M unit :=
  (if negb (env_truthy MONGODB_URI) then
     logging ERROR "MONGODB_URI is not set. Please set it in the .env file." ;;
     sys_exit 1
   else ret tt) ;;
  (if negb (env_truthy GMAIL_USER) || negb (env_truthy GMAIL_APP_PASSWORD) then
     logging ERROR "GMAIL_USER and/or GMAIL_APP_PASSWORD are not set. Please set them in the .env file." ;;
     sys_exit 1
   else ret tt).

Definition TEMPLATE_PATH : string :=
  path_join (path_join (script_dir w) "templates") "welcome_email_template.html".

Definition load_email_template : M string :=
  t <- next_tick ;;
  emit (EvReadTemplate TEMPLATE_PATH) ;;
  match template_file w t with
  | Content text => ret text
  | NotFound =>
      logging ERROR ("Email template file '" +:+ TEMPLATE_PATH +:+ "' not found.") ;;
      sys_exit 1
  | Unreadable msg => raise (PyError msg)
  end.

Definition current_year : M Z := fun st => (Ret (now_year w (tick st)), st).

Definition render (r : render_result) : M string :=
  match r with
  | Rendered html => ret html
  | RenderError msg => raise (PyError msg)
  end.

(** [formataddr] encodes the address [GMAIL_USER] in ASCII and lets the
    error out; this is the one step of building the message that can
    fail. *)
Definition sender_error : option string :=
  match GMAIL_USER with
  | Some user =>
      if is_ascii user then None else Some (encode_error w (VStr user))
  | None => Some (encode_error w VNull)
  end.

Definition welcome_message (to_email : value) (html_content : string)
  : email_message :=
  {| msg_from_name := FROM_NAME;
     msg_from_addr := default "" GMAIL_USER;
     msg_subject := "Welcome to WildVision!";
     msg_to := to_email;
     msg_html := html_content |}.

(** The [MIMEMultipart] message with its headers and its HTML part. *)
Definition build_message (to_email : value) (html_content : string)
  : M email_message :=
  match sender_error with
  | Some msg => raise (PyError msg)
  | None => ret (welcome_message to_email html_content)
  end.

(** What the guarded block raises by itself although the relay answers:
    [login] encodes the password and the [RCPT] command the recipient in
    ASCII, and [as_string] cannot fold a [To] header that is no [str]. *)
Definition local_failure (m : email_message) : option string :=
  if negb (is_ascii (default "" GMAIL_APP_PASSWORD)) then
    Some (encode_error w (VStr (default "" GMAIL_APP_PASSWORD)))
  else if negb (ascii_text (msg_to m)) then Some (encode_error w (msg_to m))
  else None.

(** What leaves the [with] statement.  [io] says how the session goes
    with the relay; a session that would complete is stopped by a local
    failure; and [SMTP.__exit__], which sends QUIT, can raise an error of
    its own, which replaces whatever was under way, a
    [KeyboardInterrupt] included. *)
Definition session_outcome (m : email_message) (t : nat) : outcome :=
  match session_exit w t with
  | Some msg => Fails msg
  | None =>
      match io w t, local_failure m with
      | Done, Some msg => Fails msg
      | r, _ => r
      end
  end.

(** The [with smtplib.SMTP_SSL(...)] block: connect, log in, send, quit. *)
Definition smtp_session (m : email_message) : M unit :=
  t <- next_tick ;;
  emit (EvSmtp m (session_outcome m t)) ;;
  answer (session_outcome m t).

Definition send_welcome_email (to_email first_name : value) : M bool :=
  emit (EvSendCall to_email first_name) ;;
  year <- current_year ;;
  html_template <- load_email_template ;;
  html_content <- render (str_format w html_template first_name year) ;;
  message <- build_message to_email html_content ;;
  try_except
    (smtp_session message ;;
     logging INFO ("Email sent to " +:+ py_str to_email +:+ " successfully.") ;;
     ret true)
    (on_Exception (fun e =>
       logging ERROR ("Failed to send email to " +:+ py_str to_email +:+ ": " +:+ e) ;;
       ret false)).

Definition send_test_email (address : string) : M unit :=
  logging INFO ("Sending test email to " +:+ address +:+ "...") ;;
  success <- send_welcome_email (VStr address) (VStr "Test User") ;;
  if success : bool then
    logging INFO ("Test email sent to " +:+ address +:+ " successfully.")
  else
    logging ERROR ("Failed to send test email to " +:+ address +:+ ".").

Definition count_documents : M nat :=
  t <- next_tick ;;
  emit (EvCount (io w t)) ;;
  answer (io w t) ;;
  c <- get_store ;;
  ret (length (find c)).

(** [users_collection.find(query)] only builds a cursor; the server is
    asked when the [for] loop starts to read it, outside the [try] block.
    The result is taken to arrive in that one answer: the loop then runs
    over the documents selected at that moment. *)
Definition fetch : M (list (oid * document)) :=
  t <- next_tick ;;
  emit (EvFind (io w t)) ;;
  answer (io w t) ;;
  c <- get_store ;;
  ret (find c).

(** [update_one({'_id': id}, {'$set': {'welcome_email_sent': True}})].
    The store has applied the write when the call completes; when the
    call raises, the write may have been applied all the same (the reply
    was lost on the way), which the world tells. *)
Definition update_one (id : oid) : M unit :=
  t <- next_tick ;;
  emit (EvUpdate id (io w t)) ;;
  c <- get_store ;;
  (if written (io w t) (update_applied w t) then set_store (set_sent id c)
   else ret tt) ;;
  answer (io w t).

(** The body of the [for user in users_to_email] loop. *)
Definition process_user (user : oid * document) : M unit :=
  let email := dict_get user.2 "email" in
  let first_name := dict_get_or user.2 "firstName" (VStr "User") in
  if negb (truthy email) then
    logging WARNING ("User with ID "
                     +:+ py_str (dict_get_or user.2 "userId" (VStr "N/A"))
                     +:+ " does not have an email address. Skipping.")
  else
    success <- send_welcome_email email first_name ;;
    if success : bool then
      try_except
        (update_one user.1 ;;
         logging INFO ("Marked user " +:+ py_str email +:+ " as emailed."))
        (on_Exception (fun e =>
           logging ERROR ("Failed to update user " +:+ py_str email
                          +:+ " as emailed: " +:+ e)))
    else
      logging ERROR ("Failed to send email to " +:+ py_str email
                     +:+ ". Will retry in next run.").

(** [process_users]; the [try] block answers [false] where the source
    returns early. *)
Definition process_users : M unit :=
  go_on <- try_except
    (count <- count_documents ;;
     if (count =? 0)%nat then
       logging INFO "No new users to send emails to." ;;
       ret false
     else
       logging INFO ("Found " +:+ decimal (Z.of_nat count)
                     +:+ " users to send welcome emails to.") ;;
       ret true)
    (on_Exception (fun e =>
       logging ERROR ("Error querying users: " +:+ e) ;;
       sys_exit 1)) ;;
  if go_on : bool then
    users_to_email <- fetch ;;
    for_each users_to_email process_user
  else ret tt.

Definition parse_args (c : cli) : M args :=
  match c with
  | Parsed a => ret a
  | HelpRequested => sys_exit 0
  | UsageError => sys_exit 2
  end.

(** [MongoClient(MONGODB_URI)] and the choice of the database. *)
Definition connect : M unit :=
  t <- next_tick ;;
  emit (EvConnect (default "" MONGODB_URI)
          (if env_truthy MONGODB_DATABASE then MONGODB_DATABASE else None)
          (io w t)) ;;
  answer (io w t).

(** The error with which [time.sleep(secs)] refuses its argument before
    sleeping: the conversion overflows, or the length is negative. *)
Definition sleep_refusal (secs : Z) : option string :=
  match sleep_overflow w secs with
  | Some msg => Some msg
  | None =>
      if (secs <? 0)%Z then Some "sleep length must be non-negative" else None
  end.

Definition sleep (secs : Z) : M unit :=
  match sleep_refusal secs with
  | Some msg => raise (PyError msg)
  | None =>
      t <- next_tick ;;
      emit (EvSleep secs (io w t)) ;;
      answer (io w t)
  end.

(** One round of the [while True] loop of [main]. *)
Definition poll_cycle (secs : Z) : M unit :=
  process_users ;;
  logging INFO ("Sleeping for " +:+ decimal secs +:+ " seconds before next check.") ;;
  sleep secs.

Definition main_handlers (e : exn) : option (M unit) :=
  match e with
  | KeyboardInterrupt =>
      Some (logging INFO "Script interrupted by user. Exiting gracefully." ;;
            sys_exit 0)
  | PyError msg =>
      Some (logging ERROR ("An unexpected error occurred: " +:+ msg) ;;
            sys_exit 1)
  | SystemExit _ => None
  end.

Definition main (c : cli) (fuel : nat) : M unit :=
  a <- parse_args c ;;
  if test a then
    if negb (env_truthy (test_email a)) then
      logging ERROR "Please provide an email address for the test using the --test-email argument." ;;
      sys_exit 1
    else send_test_email (default "" (test_email a))
  else
    try_except
      (connect ;;
       logging INFO "Connected to MongoDB successfully.")
      (on_Exception (fun e =>
         logging ERROR ("Failed to connect to MongoDB: " +:+ e) ;;
         sys_exit 1)) ;;
    logging INFO ("Starting continuous check for new users every "
                  +:+ decimal (interval a) +:+ " seconds.") ;;
    try_except (while_true fuel (poll_cycle (interval a))) main_handlers.

(** The whole run: the module body, then [main()]. *)
Definition program (c : cli) (fuel : nat) : M unit :=
  validate_environment ;;
  main c fuel.

End Script.

Definition initial (c : collection) : state :=
  {| store := c; trace := []; tick := 0 |}.

(** The status the process ends with; [None] while it still runs.  An
    uncaught [Exception] prints a traceback and ends with status 1, an
    uncaught [KeyboardInterrupt] ends the process by SIGINT, which a
    shell reports as 130. *)
Definition exit_status {A} (r : result A) : option Z :=
  match r with
  | Ret _ => Some 0%Z
  | Raise (SystemExit code) => Some code
  | Raise KeyboardInterrupt => Some 130%Z
  | Raise (PyError _) => Some 1%Z
  | OutOfFuel => None
  end.

(* --------------------------------------------------------------------- *)
(** * Reading a run                                                       *)
(* --------------------------------------------------------------------- *)

Definition environment_valid (w : world) : bool :=
  env_truthy (MONGODB_URI w) && env_truthy (GMAIL_USER w)
  && env_truthy (GMAIL_APP_PASSWORD w).

(** The calls of [send_welcome_email], with their arguments. *)
Definition send_calls (tr : list event) : list (value * value) :=
  omap (fun e => match e with EvSendCall a n => Some (a, n) | _ => None end) tr.

(** The messages for which an SMTP session was started. *)
Definition smtp_sessions (tr : list event) : list email_message :=
  omap (fun e => match e with EvSmtp m _ => Some m | _ => None end) tr.

Definition is_store_call (e : event) : bool :=
  match e with
  | EvConnect _ _ _ | EvCount _ | EvFind _ | EvUpdate _ _ => true
  | _ => false
  end.

Definition store_calls (tr : list event) : list event :=
  List.filter is_store_call tr.

(** [n] complete rounds of a loop body. *)
Fixpoint rounds (n : nat) (body : M unit) : M unit :=
  match n with
  | O => ret tt
  | S n' => body ;; rounds n' body
  end.

(** The trace [tr'] continues [tr] with events that all satisfy [P]. *)
Definition extends (P : event -> Prop) (tr tr' : list event) : Prop :=
  exists evs, tr' = tr ++ evs /\ Forall P evs.

(** A step relation on states: the collections are related by [RS] and
    the trace grew by events that satisfy [P]. *)
Definition rel (RS : collection -> collection -> Prop) (P : event -> Prop)
    (st st' : state) : Prop :=
  RS (store st) (store st') /\ extends P (trace st) (trace st').

(** The value of the flag of the record [id], if the record and the flag
    exist. *)
Definition welcome_email_sent (c : collection) (id : oid) : option value :=
  c !! id ≫= fun d => d !! "welcome_email_sent".

Definition unsent (flag : option value) : Prop :=
  flag = None \/ flag = Some (VBool false).

(** The only change of a flag: from unsent to [True]. *)
Definition flag_step (before after : option value) : Prop :=
  after = before \/ (unsent before /\ after = Some (VBool true)).

(** What the program may do to a collection: no record appears or
    disappears, and a record changes at most by its flag being set. *)
Definition marks_only (c c' : collection) : Prop :=
  forall id,
    match c !! id with
    | None => c' !! id = None
    | Some d =>
        c' !! id = Some d
        \/ (query d = true /\ c' !! id = Some (<["welcome_email_sent" := VBool true]> d))
    end.

(** What is known of a candidate when its round begins: its record is
    still selected by the query, or marked already. *)
Definition markable (u : oid * document) (c : collection) : Prop :=
  forall d, c !! u.1 = Some d ->
            query d = true \/ d !! "welcome_email_sent" = Some (VBool true).

(** The lines that close a run: the two of a test-mode run, the one of
    the graceful exit of service mode, and the one of the handler for an
    unexpected error. *)
Definition test_sent_line (address : string) : event :=
  EvLog INFO ("Test email sent to " +:+ address +:+ " successfully.").
Definition test_failed_line (address : string) : event :=
  EvLog ERROR ("Failed to send test email to " +:+ address +:+ ".").
Definition graceful_line : event :=
  EvLog INFO "Script interrupted by user. Exiting gracefully.".
Definition unexpected_line (cause : string) : event :=
  EvLog ERROR ("An unexpected error occurred: " +:+ cause).

Definition ends_in_graceful_interrupt (tr : list event) : Prop :=
  last tr = Some graceful_line.
Definition ends_in_successful_test_send (tr : list event) : Prop :=
  exists address, last tr = Some (test_sent_line address).
Definition ends_in_failed_test_send (tr : list event) : Prop :=
  exists address, last tr = Some (test_failed_line address).
Definition ends_in_unexpected_error (tr : list event) : Prop :=
  exists cause, last tr = Some (unexpected_line cause).

(** Log lines other than the four above. *)
Definition routine_text (text : string) : bool :=
  negb (String.eqb text "Script interrupted by user. Exiting gracefully.")
  && negb (String.prefix "Test email sent to " text)
  && negb (String.prefix "Failed to send test email to " text)
  && negb (String.prefix "An unexpected error occurred: " text).

Definition routine (e : event) : bool :=
  match e with
  | EvLog _ text => routine_text text
  | _ => true
  end.

(** A trace whose last event, if there is one, is routine. *)
Definition quiet (tr : list event) : Prop :=
  forall e, last tr = Some e -> routine e = true.

(** [sys.exit] is only ever called with status 1 inside a poll cycle. *)
Definition exits_with_1 {A} (r : result A) : Prop :=
  match r with
  | Raise (SystemExit code) => code = 1%Z
  | _ => True
  end.

(** Events of a poll cycle that do not belong to one candidate. *)
Definition cycle_event (e : event) : bool :=
  match e with
  | EvLog _ text => routine_text text
  | EvCount _ | EvFind _ | EvSleep _ _ => true
  | _ => false
  end.

(* --------------------------------------------------------------------- *)
(** * Templates, as the specification describes them                       *)
(* --------------------------------------------------------------------- *)

(** Modelled from the spec: the template file
    [templates/welcome_email_template.html] is not among the sources.
    The specification describes it as a UTF-8 HTML document with named
    substitution points for the first name and the year; it is taken
    here as literal text with replacement fields in between,
    [lead {h1} t1 {h2} t2 ...], literal braces being written doubled in
    the file as [str.format] requires. *)
Record template := {
  lead : string;
  fields : list (string * string)
}.

Fixpoint escape (s : string) : string :=
  match s with
  | EmptyString => EmptyString
  | String c s' =>
      if Ascii.eqb c "{" || Ascii.eqb c "}" then String c (String c (escape s'))
      else String c (escape s')
  end.

Fixpoint fields_source (fs : list (string * string)) : string :=
  match fs with
  | [] => ""
  | (h, t) :: fs' => "{" +:+ h +:+ "}" +:+ escape t +:+ fields_source fs'
  end.

(** The text of the template file. *)
Definition template_source (t : template) : string :=
  escape (lead t) +:+ fields_source (fields t).

Definition is_placeholder (h : string) : bool :=
  String.eqb h "first_name" || String.eqb h "year".

Fixpoint fields_filled (first_name year : string) (fs : list (string * string))
  : string :=
  match fs with
  | [] => ""
  | (h, t) :: fs' =>
      (if String.eqb h "first_name" then first_name else year)
      +:+ t +:+ fields_filled first_name year fs'
  end.

(** The template with the two values put at the placeholder positions. *)
Definition substituted (first_name year : string) (t : template) : string :=
  lead t +:+ fields_filled first_name year (fields t).

(** [occurs tok s]: the text [tok] appears somewhere in [s]. *)
Fixpoint occurs (tok s : string) : bool :=
  String.prefix tok s ||
  match s with
  | EmptyString => false
  | String _ s' => occurs tok s'
  end.

(** The literal text of the template shows no placeholder token itself. *)
Definition token_free (t : template) : bool :=
  forallb (fun s => negb (occurs "{first_name}" s) && negb (occurs "{year}" s))
    (lead t :: map snd (fields t)).

(* --------------------------------------------------------------------- *)
(** * Sample worlds                                                       *)
(* --------------------------------------------------------------------- *)

Definition sample_env (k : string) : option string :=
  if String.eqb k "MONGODB_URI" then Some "mongodb://localhost/wildvision"
  else if String.eqb k "GMAIL_USER" then Some "hello@wildvision.example"
  else if String.eqb k "GMAIL_APP_PASSWORD" then Some "app-password"
  else None.

Definition sample_template : template :=
  {| lead := "<p>Welcome, ";
     fields := [("first_name", "!</p><style>p { margin: 0 }</style><p>(c) ");
                ("year", " WildVision</p>")] |}.

(** Everything answers: the template is there, relay and store work. *)
Definition calm_world : world :=
  {| getenv := sample_env;
     script_dir := "/srv/email_send";
     template_file := fun _ => Content (template_source sample_template);
     now_year := fun _ => 2024%Z;
     io := fun _ => Done;
     session_exit := fun _ => None;
     update_applied := fun _ => false;
     encode_error := fun _ => "'ascii' codec can't encode character";
     sleep_overflow := fun _ => None;
     format_other := fun _ _ _ => RenderError "unsupported format string" |}.

(** As [calm_world], but the blocking calls are answered by [answers]. *)
Definition world_answering (answers : nat -> outcome) : world :=
  {| getenv := sample_env;
     script_dir := "/srv/email_send";
     template_file := fun _ => Content (template_source sample_template);
     now_year := fun _ => 2024%Z;
     io := answers;
     session_exit := fun _ => None;
     update_applied := fun _ => false;
     encode_error := fun _ => "'ascii' codec can't encode character";
     sleep_overflow := fun _ => None;
     format_other := fun _ _ _ => RenderError "unsupported format string" |}.

(** As [calm_world], but the template file is not there. *)
Definition world_without_template : world :=
  {| getenv := sample_env;
     script_dir := "/srv/email_send";
     template_file := fun _ => NotFound;
     now_year := fun _ => 2024%Z;
     io := fun _ => Done;
     session_exit := fun _ => None;
     update_applied := fun _ => false;
     encode_error := fun _ => "'ascii' codec can't encode character";
     sleep_overflow := fun _ => None;
     format_other := fun _ _ _ => RenderError "unsupported format string" |}.

(** As [calm_world], but [GMAIL_USER] is not set. *)
Definition world_without_gmail_user : world :=
  {| getenv := fun k => if String.eqb k "GMAIL_USER" then None else sample_env k;
     script_dir := "/srv/email_send";
     template_file := fun _ => Content (template_source sample_template);
     now_year := fun _ => 2024%Z;
     io := fun _ => Done;
     session_exit := fun _ => None;
     update_applied := fun _ => false;
     encode_error := fun _ => "'ascii' codec can't encode character";
     sleep_overflow := fun _ => None;
     format_other := fun _ _ _ => RenderError "unsupported format string" |}.

Definition service_mode : cli :=
  Parsed {| test := false; test_email := None; interval := 60 |}.

Definition test_mode (address : string) : cli :=
  Parsed {| test := true; test_email := Some address; interval := 60 |}.

Definition ann : document :=
  {[ "email" := VStr "ann@example.com"; "firstName" := VStr "Ann" ]}.
Definition bob_without_email : document :=
  {[ "firstName" := VStr "Bob"; "userId" := VStr "u-2" ]}.
Definition cy_already_sent : document :=
  {[ "email" := VStr "cy@example.com"; "welcome_email_sent" := VBool true ]}.
Definition three_users : collection :=
  {[ 1%N := ann; 2%N := bob_without_email; 3%N := cy_already_sent ]}.

(** The connection is made, then the first query of the first poll
    cycle fails. *)
Definition world_with_failing_query : world :=
  world_answering (fun t => if (t =? 1)%nat then Fails "connection reset" else Done).

(** The relay rejects every session. *)
Definition world_with_failing_relay : world :=
  world_answering (fun _ => Fails "authentication failed").

(** The record [id], if there is one, carries the flag [True]. *)
Definition settled (c : collection) (id : oid) : Prop :=
  forall d, c !! id = Some d -> d !! "welcome_email_sent" = Some (VBool true).

(** An event that does not concern the record [id] when that record has
    no usable address: no update of [id], and no send to an address that
    tests false. *)
Definition spares (id : oid) (e : event) : Prop :=
  match e with
  | EvUpdate i _ => i <> id
  | EvSendCall to_email _ => truthy to_email = true
  | EvSmtp m _ => truthy (msg_to m) = true
  | _ => True
  end.

(** The state in which the [for] loop of a poll cycle starts, both
    queries having succeeded on a collection with pending users. *)
Definition loop_start (st : state) : state :=
  {| store := store st;
     trace := trace st ++
       [EvCount Done;
        EvLog INFO ("Found " +:+ decimal (Z.of_nat (length (find (store st))))
                    +:+ " users to send welcome emails to.");
        EvFind Done];
     tick := S (S (tick st)) |}.

(** The warning of [process_users] for a record without address. *)
Definition skip_warning (d : document) : event :=
  EvLog WARNING ("User with ID " +:+ py_str (dict_get_or d "userId" (VStr "N/A"))
                 +:+ " does not have an email address. Skipping.").

(** The calls of [send_welcome_email] that a list of candidates asks for:
    one for each candidate with a usable address, in order. *)
Definition attempts (users : list (oid * document)) : list (value * value) :=
  omap (fun u : oid * document =>
          if truthy (dict_get u.2 "email")
          then Some (dict_get u.2 "email",
                     dict_get_or u.2 "firstName" (VStr "User"))
          else None) users.


(** [mentions c s]: the character [c] appears in [s]. *)
Fixpoint mentions (c : ascii) (s : string) : bool :=
  match s with
  | EmptyString => false
  | String a s' => Ascii.eqb a c || mentions c s'
  end.


(* --------------------------------------------------------------------- *)
(** * Counting events                                                     *)
(* --------------------------------------------------------------------- *)

Definition count_events (f : event -> bool) (tr : list event) : nat :=
  length (List.filter f tr).

Definition is_update (e : event) : bool :=
  match e with EvUpdate _ _ => true | _ => false end.
(** An SMTP session that completed. *)
Definition is_delivered (e : event) : bool :=
  match e with EvSmtp _ Done => true | _ => false end.
Definition is_session (e : event) : bool :=
  match e with EvSmtp _ _ => true | _ => false end.
Definition is_template_read (e : event) : bool :=
  match e with EvReadTemplate _ => true | _ => false end.
Definition is_send_call (e : event) : bool :=
  match e with EvSendCall _ _ => true | _ => false end.
(** The first query of a poll cycle. *)
Definition is_poll (e : event) : bool :=
  match e with EvCount _ => true | _ => false end.
(** A sleep that ran to its end. *)
Definition is_slept (e : event) : bool :=
  match e with EvSleep _ Done => true | _ => false end.
Definition is_connect (e : event) : bool :=
  match e with EvConnect _ _ _ => true | _ => false end.

(** The trace [tr'] continues [tr] by a run of events that satisfies [Q]. *)
Definition grows (Q : list event -> Prop) (tr tr' : list event) : Prop :=
  exists evs, tr' = tr ++ evs /\ Q evs.







(** A blocking call that a [KeyboardInterrupt] left. *)
Definition interrupted (e : event) : bool :=
  match e with
  | EvSmtp _ Interrupted | EvConnect _ _ Interrupted | EvCount Interrupted
  | EvFind Interrupted | EvUpdate _ Interrupted | EvSleep _ Interrupted => true
  | _ => false
  end.

(** 1 when the computation ended by [KeyboardInterrupt], 0 otherwise. *)
Definition interrupts {A} (r : result A) : nat :=
  match r with
  | Raise KeyboardInterrupt => 1
  | _ => 0
  end.

(** The user interrupts the fifth blocking call: in a service run on
    [three_users], the relay session of the first send. *)
Definition world_interrupted_at_4 : world :=
  world_answering (fun t => if (t =? 4)%nat then Interrupted else Done).

(** The user interrupts the relay session of a test send. *)
Definition world_interrupted_at_1 : world :=
  world_answering (fun t => if (t =? 1)%nat then Interrupted else Done).

(** The same, but the relay then answers QUIT with an error, which
    [SMTP.__exit__] raises in place of the interrupt. *)
Definition world_with_replaced_interrupt : world :=
  {| getenv := sample_env;
     script_dir := "/srv/email_send";
     template_file := fun _ => Content (template_source sample_template);
     now_year := fun _ => 2024%Z;
     io := fun t => if (t =? 1)%nat then Interrupted else Done;
     session_exit := fun t =>
       if (t =? 1)%nat then Some "(421, b'Service not available')" else None;
     update_applied := fun _ => false;
     encode_error := fun _ => "'ascii' codec can't encode character";
     sleep_overflow := fun _ => None;
     format_other := fun _ _ _ => RenderError "unsupported format string" |}.

(** A field name that the scan reads as a plain keyword: no brace and
    none of the characters that start a conversion, a format spec, an
    attribute or an index. *)
Fixpoint plain_name (s : string) : bool :=
  match s with
  | EmptyString => true
  | String c s' =>
      negb (Ascii.eqb c "{") && negb (Ascii.eqb c "}")
      && negb (beyond_fragment c) && plain_name s'
  end.

(** An event of a service that has nothing to send: a log line, the
    connection, a count or a sleep. *)
Definition is_idle (e : event) : bool :=
  match e with
  | EvLog _ _ | EvConnect _ _ _ | EvCount _ | EvSleep _ _ => true
  | _ => false
  end.



(** A collection in which nobody is pending. *)
Definition everyone_marked : collection :=
  {[ 3%N := cy_already_sent;
     5%N := <["welcome_email_sent" := VBool true]> ann ]}.


(* ===================================================================== *)
(** * Properties                                                          *)
(* ===================================================================== *)

Ltac monad_unfold :=
  cbv beta iota delta [bind ret raise try_except on_Exception emit next_tick
                       get_store set_store logging sys_exit answer].

(** ** Start-up *)

Lemma validate_environment_ok w st :
  environment_valid w = true -> validate_environment w st = (Ret tt, st).
Proof.
  unfold environment_valid, validate_environment. intros H.
  apply andb_prop in H as [H H3]. apply andb_prop in H as [H1 H2].
  unfold bind. rewrite H1, H2, H3. reflexivity.
Qed.

Lemma validate_environment_rejects w st :
  environment_valid w = false ->
  exists text,
    validate_environment w st
    = (Raise (SystemExit 1),
       {| store := store st; trace := trace st ++ [EvLog ERROR text]; tick := tick st |})
    /\ routine (EvLog ERROR text) = true.
Proof.
  unfold environment_valid, validate_environment. intros H.
  monad_unfold.
  destruct (env_truthy (MONGODB_URI w)); cbn in *; [|eauto].
  destruct st as [c tr t]; cbn.
  destruct (env_truthy (GMAIL_USER w)); cbn in *; [|eauto].
  rewrite H. cbn. eauto.
Qed.

Lemma program_valid w c fuel st :
  environment_valid w = true -> program w c fuel st = main w c fuel st.
Proof.
  intros H. unfold program, bind. by rewrite validate_environment_ok.
Qed.

Lemma program_invalid w c fuel st :
  environment_valid w = false ->
  exists text,
    program w c fuel st
    = (Raise (SystemExit 1),
       {| store := store st; trace := trace st ++ [EvLog ERROR text]; tick := tick st |})
    /\ routine (EvLog ERROR text) = true.
Proof.
  intros H. destruct (validate_environment_rejects w st H) as (text & E & Hr).
  exists text. unfold program, bind. by rewrite E.
Qed.

Lemma unset_is_invalid w :
  getenv w "MONGODB_URI" = None \/ getenv w "GMAIL_USER" = None
  \/ getenv w "GMAIL_APP_PASSWORD" = None ->
  environment_valid w = false.
Proof.
  unfold environment_valid, MONGODB_URI, GMAIL_USER, GMAIL_APP_PASSWORD.
  intros [-> | [-> | ->]]; cbn; rewrite ?andb_false_r; reflexivity.
Qed.

(** C10.  If [MONGODB_URI], [GMAIL_USER] or [GMAIL_APP_PASSWORD] is unset,
    the process ends with status 1 whatever the command line selects
    (test mode, service mode, help or a usage error): it has written one
    error line and has made no call to the file system, the relay or the
    store, and the collection is as it was. *)
Theorem configuration_required_in_every_mode w c fuel col :
  getenv w "MONGODB_URI" = None \/ getenv w "GMAIL_USER" = None
  \/ getenv w "GMAIL_APP_PASSWORD" = None ->
  exit_status (program w c fuel (initial col)).1 = Some 1%Z
  /\ (exists text, trace (program w c fuel (initial col)).2 = [EvLog ERROR text])
  /\ tick (program w c fuel (initial col)).2 = 0
  /\ store (program w c fuel (initial col)).2 = col.
Proof.
  intros H. apply unset_is_invalid in H.
  destruct (program_invalid w c fuel (initial col) H) as (text & -> & _).
  cbn. eauto.
Qed.

Lemma configuration_required_in_every_mode_witness :
  (getenv world_without_gmail_user "MONGODB_URI" = None
   \/ getenv world_without_gmail_user "GMAIL_USER" = None
   \/ getenv world_without_gmail_user "GMAIL_APP_PASSWORD" = None)
  /\ exit_status
       (program world_without_gmail_user (test_mode "qa@example.com") 3
          (initial three_users)).1 = Some 1%Z.
Proof.
  assert (H : getenv world_without_gmail_user "MONGODB_URI" = None
              \/ getenv world_without_gmail_user "GMAIL_USER" = None
              \/ getenv world_without_gmail_user "GMAIL_APP_PASSWORD" = None)
    by (right; left; reflexivity).
  split; [exact H|].
  exact (proj1 (configuration_required_in_every_mode
                  world_without_gmail_user (test_mode "qa@example.com") 3
                  three_users H)).
Defined.

(** ** The mail dispatcher *)

Ltac script_unfold :=
  unfold send_test_email, process_user, send_welcome_email, load_email_template,
    build_message, smtp_session, current_year, update_one, written, render;
  monad_unfold.

Lemma main_test w address secs fuel st :
  address <> "" ->
  main w (Parsed {| test := true; test_email := Some address; interval := secs |}) fuel st
  = send_test_email w address st.
Proof.
  intros Haddr. apply String.eqb_neq in Haddr.
  unfold main, parse_args, bind, ret. cbn [test test_email env_truthy].
  by rewrite Haddr.
Qed.

Lemma session_outcome_interrupted w m t :
  session_outcome w m t = Interrupted ->
  io w t = Interrupted /\ session_exit w t = None.
Proof.
  unfold session_outcome. destruct (session_exit w t); [discriminate|].
  destruct (io w t); [destruct (local_failure w m)|..]; by intros.
Qed.







(** ** Test mode *)




(** ** Query failures in a poll cycle *)

Lemma while_true_rounds n k body st :
  while_true (n + k) body st = (rounds n body ;; while_true k body) st.
Proof.
  revert st. induction n as [|n IH]; intros st; [reflexivity|].
  cbn [Nat.add while_true rounds]. unfold bind.
  destruct (body st) as [[[]|e|] st1]; [|reflexivity..].
  rewrite IH. reflexivity.
Qed.

(** C1, as the code has it.  A failing query is fatal in every poll
    cycle, not only at start-up: when, after any number of complete
    cycles, [count_documents] raises an [Exception], [process_users] logs
    it and calls [sys.exit(1)]; no handler of [main] catches [SystemExit],
    so the process ends with status 1 and nothing is retried. *)
Theorem query_failure_is_fatal w secs n fuel st st_n cause :
  rounds n (poll_cycle w secs) st = (Ret tt, st_n) ->
  io w (tick st_n) = Fails cause ->
  try_except (while_true (n + S fuel) (poll_cycle w secs)) main_handlers st
  = (Raise (SystemExit 1),
     {| store := store st_n;
        trace := trace st_n ++ [EvCount (Fails cause);
                                EvLog ERROR ("Error querying users: " +:+ cause)];
        tick := S (tick st_n) |})
  /\ exit_status
       (try_except (while_true (n + S fuel) (poll_cycle w secs)) main_handlers st).1
     = Some 1%Z.
Proof.
  intros Hrounds Hio.
  assert (try_except (while_true (n + S fuel) (poll_cycle w secs)) main_handlers st
          = (Raise (SystemExit 1),
             {| store := store st_n;
                trace := trace st_n ++ [EvCount (Fails cause);
                                        EvLog ERROR ("Error querying users: " +:+ cause)];
                tick := S (tick st_n) |})) as ->; [|done].
  unfold try_except. rewrite while_true_rounds. unfold bind at 1.
  rewrite Hrounds. cbn [while_true].
  unfold poll_cycle, process_users, count_documents. monad_unfold.
  cbn [tick trace store]. rewrite Hio. cbn. by rewrite <- app_assoc.
Qed.

Lemma query_failure_is_fatal_witness :
  rounds 0 (poll_cycle world_with_failing_query 60)
    {| store := three_users; trace := []; tick := 1 |}
  = (Ret tt, {| store := three_users; trace := []; tick := 1 |})
  /\ io world_with_failing_query 1 = Fails "connection reset"
  /\ exit_status
       (try_except (while_true (0 + 1) (poll_cycle world_with_failing_query 60))
          main_handlers {| store := three_users; trace := []; tick := 1 |}).1
     = Some 1%Z.
Proof.
  split; [reflexivity|]. split; [reflexivity|].
  exact (proj2 (query_failure_is_fatal world_with_failing_query 60 0 0
                  {| store := three_users; trace := []; tick := 1 |}
                  {| store := three_users; trace := []; tick := 1 |}
                  "connection reset" eq_refl eq_refl)).
Defined.

(** C1, as stated, fails: the connection is acquired, the first query of
    the first poll cycle fails, and the process exits with status 1
    instead of waiting for the next cycle. *)
Lemma query_failure_after_connection_exits :
  program world_with_failing_query service_mode 5 (initial three_users)
  = (Raise (SystemExit 1),
     {| store := three_users;
        trace := [EvConnect "mongodb://localhost/wildvision" None Done;
                  EvLog INFO "Connected to MongoDB successfully.";
                  EvLog INFO "Starting continuous check for new users every 60 seconds.";
                  EvCount (Fails "connection reset");
                  EvLog ERROR "Error querying users: connection reset"];
        tick := 2 |})
  /\ exit_status
       (program world_with_failing_query service_mode 5 (initial three_users)).1
     = Some 1%Z.
Proof. split; vm_compute; reflexivity. Qed.

(** ** Paths through one call *)

(** Case analysis on what the file system, [str.format] and the outside
    parties answer, one blocking call after the other. *)
Ltac explore :=
  repeat (cbv beta iota; cbn [tick trace store fst snd];
    match goal with
    | |- context [template_file ?w ?t] => destruct (template_file w t) eqn:?
    | |- context [str_format ?w ?a ?b ?c] => destruct (str_format w a b c) eqn:?
    | |- context [sender_error ?w] => destruct (sender_error w) eqn:?
    | |- context [session_outcome ?w ?m ?t] =>
        destruct (session_outcome w m t) eqn:?
    | |- context [io ?w ?t] => destruct (io w t) eqn:?
    | |- context [update_applied ?w ?t] => destruct (update_applied w t) eqn:?
    end);
  cbv beta iota; cbn [tick trace store fst snd].

Lemma send_welcome_email_store w to_email first_name st :
  store (send_welcome_email w to_email first_name st).2 = store st.
Proof. script_unfold. explore; reflexivity. Qed.

Lemma send_test_email_store w address st :
  store (send_test_email w address st).2 = store st.
Proof. script_unfold. explore; reflexivity. Qed.

(** ** What a poll cycle preserves *)

(** The rules below lift a property of one round of the [for] loop to
    [process_users], to a poll cycle and to any number of cycles.  [Inv]
    is what is known of the collection, [Cand] what is known of a
    candidate the query returned. *)
Section PollCycle.
Context (w : world).
Context (RS : collection -> collection -> Prop) (P : event -> Prop).
Context (Inv : collection -> Prop).
Context (Cand : oid * document -> collection -> Prop).
Hypothesis RS_refl : forall c, RS c c.
Hypothesis RS_trans : forall c1 c2 c3, RS c1 c2 -> RS c2 c3 -> RS c1 c3.
Hypothesis RS_inv : forall c c', Inv c -> RS c c' -> Inv c'.
Hypothesis Cand_find : forall c u, Inv c -> u ∈ find c -> Cand u c.
Hypothesis Cand_stable : forall u c c', Cand u c -> RS c c' -> Cand u c'.
Hypothesis P_cycle : forall e, cycle_event e = true -> P e.
Hypothesis body :
  forall u st,
    Inv (store st) -> Cand u (store st) -> rel RS P st (process_user w u st).2.

Lemma rel_refl st : rel RS P st st.
Proof.
  split; [apply RS_refl|]. exists []. by rewrite app_nil_r.
Qed.

Lemma rel_trans st1 st2 st3 :
  rel RS P st1 st2 -> rel RS P st2 st3 -> rel RS P st1 st3.
Proof.
  intros [H1 (evs1 & E1 & F1)] [H2 (evs2 & E2 & F2)].
  split; [by eapply RS_trans|].
  exists (evs1 ++ evs2). rewrite E2, E1, app_assoc. split; [done|].
  by apply Forall_app.
Qed.

Lemma rel_events st evs t :
  Forall P evs ->
  rel RS P st {| store := store st; trace := trace st ++ evs; tick := t |}.
Proof. intros H. split; [apply RS_refl|]. by exists evs. Qed.

Lemma rel_inv st st' : Inv (store st) -> rel RS P st st' -> Inv (store st').
Proof. intros HI [H _]. by eapply RS_inv. Qed.

Lemma for_each_rel users st :
  Inv (store st) -> Forall (fun u => Cand u (store st)) users ->
  rel RS P st (for_each users (process_user w) st).2.
Proof.
  revert st. induction users as [|u users IH]; intros st HI HC.
  - apply rel_refl.
  - apply Forall_cons in HC as [Hu HC].
    pose proof (body u st HI Hu) as Hb.
    cbn [for_each]. unfold bind.
    destruct (process_user w u st) as [[[]|e|] st1]; cbn in *; [|done..].
    eapply rel_trans; [exact Hb|]. apply IH; [by eapply rel_inv|].
    eapply Forall_impl; [exact HC|]. intros u' Hu'.
    eapply Cand_stable; [exact Hu'|apply Hb].
Qed.

Ltac cycle_events :=
  rewrite <- ?app_assoc; cbn [app]; apply rel_events;
  repeat constructor; apply P_cycle; reflexivity.

Lemma process_users_rel st :
  Inv (store st) -> rel RS P st (process_users w st).2.
Proof.
  intros HI. unfold process_users, count_documents, fetch. monad_unfold.
  cbn [tick trace store].
  destruct (io w (tick st)); cbv beta iota; cbn [tick trace store];
    [|cycle_events..].
  destruct (length (find (store st)) =? 0)%nat; cbv beta iota;
    cbn [tick trace store snd]; [cycle_events|].
  destruct (io w (S (tick st))); cbv beta iota; cbn [tick trace store];
    [|cycle_events..].
  eapply rel_trans; [|apply for_each_rel].
  - cycle_events.
  - done.
  - apply Forall_forall. intros u Hu. by eapply Cand_find.
Qed.

Lemma poll_cycle_rel secs st :
  Inv (store st) -> rel RS P st (poll_cycle w secs st).2.
Proof.
  intros HI. pose proof (process_users_rel st HI) as H.
  unfold poll_cycle, sleep. unfold bind at 1.
  destruct (process_users w st) as [[[]|e|] st1]; cbn [snd] in *; [|done..].
  eapply rel_trans; [exact H|].
  monad_unfold. destruct (sleep_refusal w secs); cbv beta iota; cbn [tick trace store].
  - cycle_events.
  - destruct (io w (tick st1)); cbv beta iota; cbn [tick trace store snd];
      cycle_events.
Qed.

Lemma while_true_rel secs fuel st :
  Inv (store st) -> rel RS P st (while_true fuel (poll_cycle w secs) st).2.
Proof.
  revert st. induction fuel as [|fuel IH]; intros st HI; [apply rel_refl|].
  pose proof (poll_cycle_rel secs st HI) as H.
  cbn [while_true]. unfold bind.
  destruct (poll_cycle w secs st) as [[[]|e|] st1]; cbn [snd] in *; [|done..].
  eapply rel_trans; [exact H|]. apply IH. by eapply rel_inv.
Qed.

(** The same for a whole run, in either mode, when [P] also admits the
    events that [main] and a test send add. *)
Lemma program_rel c fuel st :
  (forall l text, P (EvLog l text)) ->
  (forall uri db r, P (EvConnect uri db r)) ->
  (forall path, P (EvReadTemplate path)) ->
  (forall address,
      address <> "" -> P (EvSendCall (VStr address) (VStr "Test User"))) ->
  (forall address m r,
      address <> "" -> msg_to m = VStr address -> P (EvSmtp m r)) ->
  Inv (store st) -> rel RS P st (program w c fuel st).2.
Proof.
  intros Plog Pconn Pread Pcall Psmtp HI.
  destruct (environment_valid w) eqn:Hv.
  2: { destruct (program_invalid w c fuel st Hv) as (text & -> & _).
       apply rel_events. auto. }
  rewrite program_valid by done. unfold main, parse_args.
  destruct c as [a| |]; monad_unfold; [|apply rel_refl..].
  destruct (test a).
  { destruct (test_email a) as [address|]; cbn [env_truthy negb];
      [|apply rel_events; auto].
    destruct (String.eqb_spec address "") as [->|Hne]; cbn [negb default];
      [apply rel_events; auto|].
    script_unfold. explore;
      (rewrite <- ?app_assoc; cbn [app]; apply rel_events;
       repeat constructor; eauto). }
  unfold connect. monad_unfold. cbn [tick trace store].
  destruct (io w (tick st)); cbv beta iota; cbn [tick trace store];
    [|rewrite <- ?app_assoc; cbn [app]; apply rel_events; auto..].
  match goal with
  | |- context [while_true fuel ?b ?s] =>
      pose proof (while_true_rel (interval a) fuel s HI) as H;
      destruct (while_true fuel b s) as [[[]|[code| |msg]|] st2];
      (eapply rel_trans; [|eapply rel_trans; [exact H|]])
  end;
    cbn [snd store trace tick main_handlers];
    first [apply rel_refl
          |rewrite <- ?app_assoc; cbn [app]; apply rel_events; auto].
Qed.
End PollCycle.

(** ** The flag only moves from unsent to sent *)

Lemma find_spec (c : collection) (u : oid * document) :
  u ∈ find c <-> c !! u.1 = Some u.2 /\ query u.2 = true.
Proof.
  unfold find. rewrite list_elem_of_filter, elem_of_map_to_list'. tauto.
Qed.

Lemma query_set (d : document) :
  query (<["welcome_email_sent" := VBool true]> d) = false.
Proof. unfold query. by rewrite lookup_insert_eq. Qed.

Lemma marks_only_refl c : marks_only c c.
Proof. intros id. destruct (c !! id); auto. Qed.

Lemma marks_only_trans c1 c2 c3 :
  marks_only c1 c2 -> marks_only c2 c3 -> marks_only c1 c3.
Proof.
  intros H12 H23 id. specialize (H12 id). specialize (H23 id).
  destruct (c1 !! id) as [d|].
  - destruct H12 as [E | [Hq E]]; rewrite E in H23.
    + exact H23.
    + destruct H23 as [E' | [Hq' _]]; [by right|].
      by rewrite query_set in Hq'.
  - by rewrite H12 in H23.
Qed.

(** [update_one] on a record that the query selected, or that is marked
    already, only sets the flag. *)
Lemma marks_only_set_sent (c : collection) id :
  (forall d, c !! id = Some d ->
             query d = true \/ d !! "welcome_email_sent" = Some (VBool true)) ->
  marks_only c (set_sent id c).
Proof.
  intros H id'. unfold set_sent. destruct (decide (id = id')) as [<-|Hne].
  - rewrite lookup_alter_eq. destruct (c !! id) as [d|] eqn:E; [|done].
    cbn. destruct (H d eq_refl) as [Hq | Hset]; [by right|].
    left. by rewrite insert_id.
  - rewrite lookup_alter_ne by done. destruct (c !! id'); auto.
Qed.

Lemma marks_only_flag c c' id :
  marks_only c c' ->
  flag_step (welcome_email_sent c id) (welcome_email_sent c' id).
Proof.
  intros H. specialize (H id). unfold flag_step, welcome_email_sent, unsent.
  destruct (c !! id) as [d|]; [|rewrite H; by left].
  destruct H as [-> | [Hq ->]]; [by left|]. right. cbn.
  rewrite lookup_insert_eq. split; [|done].
  unfold query in Hq.
  destruct (d !! "welcome_email_sent") as [[|[]| |]|]; auto; discriminate.
Qed.

Lemma marks_only_dom c c' id :
  marks_only c c' -> is_Some (c !! id) <-> is_Some (c' !! id).
Proof.
  intros H. specialize (H id). destruct (c !! id) as [d|].
  - destruct H as [-> | [_ ->]]; split; eauto.
  - rewrite H. done.
Qed.

Lemma markable_find c u : u ∈ find c -> markable u c.
Proof.
  intros [E Hq]%find_spec d Hd. left. congruence.
Qed.

Lemma markable_stable u c c' : markable u c -> marks_only c c' -> markable u c'.
Proof.
  intros Hm H d' Hd'. specialize (H u.1).
  destruct (c !! u.1) as [d|] eqn:E; [|congruence].
  destruct H as [E' | [_ E']]; rewrite E' in Hd'; simplify_eq.
  - by apply Hm.
  - right. by rewrite lookup_insert_eq.
Qed.

Lemma extends_any tr evs : extends (fun _ => True) tr (tr ++ evs).
Proof. exists evs. split; [done|]. by apply Forall_true. Qed.

Lemma process_user_marks_only w u st :
  markable u (store st) ->
  rel marks_only (fun _ => True) st (process_user w u st).2.
Proof.
  intros Hm. unfold process_user.
  destruct (truthy (dict_get u.2 "email")); cbn [negb];
    script_unfold; explore;
    (split; cbn [store trace];
     [first [apply marks_only_refl | by apply marks_only_set_sent]
     |rewrite <- ?app_assoc; apply extends_any]).
Qed.

Lemma program_marks_only w c fuel st :
  marks_only (store st) (store (program w c fuel st).2).
Proof.
  apply (program_rel w marks_only (fun _ => True) (fun _ => True) markable
           marks_only_refl marks_only_trans (fun _ _ _ _ => I)
           (fun c' u _ => markable_find c' u) markable_stable (fun _ _ => I)
           (fun u st' _ => process_user_marks_only w u st') c fuel st); done.
Qed.

Lemma loop_marks_only w secs fuel st :
  marks_only (store st) (store (while_true fuel (poll_cycle w secs) st).2).
Proof.
  exact (proj1 (while_true_rel w marks_only (fun _ => True) (fun _ => True) markable
           marks_only_refl marks_only_trans (fun _ _ _ _ => I)
           (fun c' u _ => markable_find c' u) markable_stable (fun _ _ => I)
           (fun u st' _ => process_user_marks_only w u st') secs fuel st I)).
Qed.

(** C4.  Over a whole run of the program, in either mode and from any
    state, the flag [welcome_email_sent] of every record is either what
    it was or has gone from unsent (absent or [False]) to [True]; it is
    never set back or removed, and no record appears or disappears. *)
Theorem flag_only_moves_from_unsent_to_sent w c fuel st id :
  flag_step (welcome_email_sent (store st) id)
            (welcome_email_sent (store (program w c fuel st).2) id)
  /\ (is_Some (store st !! id) <-> is_Some (store (program w c fuel st).2 !! id))
  /\ (welcome_email_sent (store st) id = Some (VBool true) ->
      welcome_email_sent (store (program w c fuel st).2) id = Some (VBool true)).
Proof.
  pose proof (program_marks_only w c fuel st) as H.
  pose proof (marks_only_flag _ _ id H) as Hf.
  split; [exact Hf|]. split; [by apply marks_only_dom|].
  intros Hs. destruct Hf as [-> | [[Hu | Hu] ->]]; congruence.
Qed.

(** ** A marked user is not selected again *)

Lemma settled_set_sent c id : settled (set_sent id c) id.
Proof.
  intros d. unfold set_sent. rewrite lookup_alter_eq.
  destruct (c !! id); cbn; [|done]. intros [= <-]. apply lookup_insert_eq.
Qed.

Lemma settled_stable c c' id : marks_only c c' -> settled c id -> settled c' id.
Proof.
  intros H Hs d' Hd'. specialize (H id).
  destruct (c !! id) as [d|] eqn:E; [|congruence].
  destruct H as [E' | [_ E']]; rewrite E' in Hd'; simplify_eq.
  - by apply Hs.
  - apply lookup_insert_eq.
Qed.

Lemma settled_not_found c id : settled c id -> id ∉ (find c).*1.
Proof.
  intros Hs [u [-> [E Hq]%find_spec]]%list_elem_of_fmap.
  apply Hs in E. unfold query in Hq. by rewrite E in Hq.
Qed.

(** C5.  Once [update_one] has marked the record [id], the query does not
    select it: not right after the update, and not in the state any
    number of later poll cycles leave, wherever they stop. *)
Theorem marked_user_is_not_selected_again w id st secs fuel :
  io w (tick st) = Done ->
  (update_one w id st).1 = Ret tt
  /\ (id ∉ (find (store (update_one w id st).2)).*1)
  /\ (id ∉ (find (store (while_true fuel (poll_cycle w secs)
                           (update_one w id st).2).2)).*1).
Proof.
  intros Hio.
  assert (Hs : settled (store (update_one w id st).2) id).
  { unfold update_one. monad_unfold. cbn [tick]. rewrite Hio. cbn.
    apply settled_set_sent. }
  split; [|split].
  - unfold update_one. monad_unfold. cbn [tick]. by rewrite Hio.
  - by apply settled_not_found.
  - apply settled_not_found. eapply settled_stable; [|exact Hs].
    apply loop_marks_only.
Qed.

Lemma marked_user_is_not_selected_again_witness :
  io calm_world (tick (initial three_users)) = Done
  /\ (1%N ∉ (find (store (while_true 2 (poll_cycle calm_world 60)
                            (update_one calm_world 1%N (initial three_users)).2).2)).*1).
Proof.
  split; [reflexivity|].
  exact (proj2 (proj2 (marked_user_is_not_selected_again calm_world 1%N
                         (initial three_users) 60 2 eq_refl))).
Defined.

(** ** A record without an address *)

Lemma process_user_skips w id d st :
  truthy (dict_get d "email") = false ->
  process_user w (id, d) st
  = (Ret tt, {| store := store st; trace := trace st ++ [skip_warning d];
                tick := tick st |}).
Proof. intros H. unfold process_user. cbn [fst snd]. by rewrite H. Qed.

Lemma process_user_spares w id d u st :
  truthy (dict_get d "email") = false ->
  (u.1 = id -> u.2 = d) ->
  rel (fun c c' : collection => c' !! id = c !! id) (spares id) st
      (process_user w u st).2.
Proof.
  intros Hd Hu. unfold process_user.
  destruct (truthy (dict_get u.2 "email")) eqn:He; cbn [negb].
  - assert (u.1 <> id) by (intros E; rewrite (Hu E) in He; congruence).
    script_unfold. explore;
      (split; cbn [store trace];
       [first [reflexivity | by apply lookup_alter_ne]
       |eexists; split;
        [rewrite <- ?app_assoc; reflexivity | repeat constructor; done]]).
  - split; cbn; [done|]. eexists; split; [reflexivity|]. by repeat constructor.
Qed.

Lemma program_spares w c fuel st id d :
  store st !! id = Some d ->
  truthy (dict_get d "email") = false ->
  rel (fun c c' : collection => c' !! id = c !! id) (spares id) st
      (program w c fuel st).2.
Proof.
  intros Hid Hd.
  apply (program_rel w (fun c c' : collection => c' !! id = c !! id) (spares id)
           (fun c => c !! id = Some d) (fun u _ => u.1 = id -> u.2 = d)).
  - done.
  - intros c1 c2 c3 H1 H2. by rewrite H2.
  - intros c1 c2 H1 H2. by rewrite H2.
  - intros c1 u H1 [E _]%find_spec Hu. rewrite Hu in E. congruence.
  - done.
  - by intros [] ?.
  - intros u st' _ Hu. by apply (process_user_spares w id d).
  - done.
  - done.
  - done.
  - intros address Hne. cbn. by apply negb_true_iff, String.eqb_neq.
  - intros address m r Hne Hm. cbn. rewrite Hm. cbn.
    by apply negb_true_iff, String.eqb_neq.
  - done.
Qed.

Lemma for_each_app {A} (l1 l2 : list A) (body : A -> M unit) st :
  for_each (l1 ++ l2) body st = (for_each l1 body ;; for_each l2 body) st.
Proof.
  revert st. induction l1 as [|x l1 IH]; intros st; [reflexivity|].
  cbn [app for_each]. unfold bind.
  destruct (body x st) as [[[]|e|] st1]; [|reflexivity..].
  rewrite IH. reflexivity.
Qed.

(** A poll cycle whose two queries succeed on a collection with pending
    users is the [for] loop over the users found. *)
Lemma process_users_loop w st :
  io w (tick st) = Done ->
  io w (S (tick st)) = Done ->
  find (store st) <> [] ->
  process_users w st
  = for_each (find (store st)) (process_user w) (loop_start st).
Proof.
  intros Hcount Hfetch Hne.
  unfold process_users, count_documents, fetch, loop_start. monad_unfold.
  cbn [tick trace store]. rewrite Hcount. cbv beta iota; cbn [tick trace store].
  destruct (length (find (store st)) =? 0)%nat eqn:Hn.
  { apply Nat.eqb_eq, nil_length_inv in Hn. done. }
  cbv beta iota; cbn [tick trace store]. rewrite Hfetch.
  cbv beta iota; cbn [tick trace store]. by rewrite <- !app_assoc.
Qed.

(** ** Failures of one candidate *)

Lemma send_calls_app tr1 tr2 :
  send_calls (tr1 ++ tr2) = send_calls tr1 ++ send_calls tr2.
Proof. apply omap_app. Qed.

Section Recoverable.
Context (w : world) (text : string).
Hypothesis template_there : forall t, template_file w t = Content text.
Hypothesis template_renders :
  forall v y, exists html, str_format w text v y = Rendered html.
Hypothesis sender_ok : sender_error w = None.
Hypothesis no_interrupt : forall t, io w t <> Interrupted.

Ltac not_interrupted :=
  match goal with
  | E : session_outcome _ _ _ = Interrupted |- _ =>
      apply session_outcome_interrupted in E as [E _]; by apply no_interrupt in E
  | E : io _ _ = Interrupted |- _ => by apply no_interrupt in E
  end.

Lemma process_user_returns u st :
  exists st1,
    process_user w u st = (Ret tt, st1)
    /\ send_calls (trace st1) = send_calls (trace st) ++ attempts [u].
Proof.
  unfold process_user, attempts. cbn [omap list_omap].
  destruct (truthy (dict_get u.2 "email")) eqn:He; cbn [negb].
  2: { eexists. split; [reflexivity|]. cbn [trace].
       rewrite send_calls_app. reflexivity. }
  script_unfold. cbn [tick trace store]. rewrite template_there.
  cbv beta iota; cbn [tick trace store].
  destruct (template_renders (dict_get_or u.2 "firstName" (VStr "User"))
              (now_year w (tick st))) as [html ->].
  cbv beta iota; cbn [tick trace store]. rewrite sender_ok.
  explore; try not_interrupted;
    (eexists; split; [reflexivity|]; cbn [trace];
     rewrite !send_calls_app, <- !app_assoc; reflexivity).
Qed.

Lemma for_each_returns users st :
  exists st1,
    for_each users (process_user w) st = (Ret tt, st1)
    /\ send_calls (trace st1) = send_calls (trace st) ++ attempts users.
Proof.
  revert st. induction users as [|u users IH]; intros st.
  - exists st. split; [done|]. by rewrite app_nil_r.
  - destruct (process_user_returns u st) as (st1 & E1 & C1).
    destruct (IH st1) as (st2 & E2 & C2).
    exists st2. cbn [for_each]. unfold bind. rewrite E1. split; [done|].
    rewrite C2, C1, <- app_assoc. f_equal.
    unfold attempts. cbn [omap list_omap].
    by destruct (truthy (dict_get u.2 "email")).
Qed.



End Recoverable.

(** ** A record without an address, in a poll cycle *)

(** The trace only grows. *)
Lemma for_each_trace w users st :
  exists evs, trace (for_each users (process_user w) st).2 = trace st ++ evs.
Proof.
  revert st. induction users as [|u users IH]; intros st.
  - exists []. by rewrite app_nil_r.
  - assert (exists evs, trace (process_user w u st).2 = trace st ++ evs)
      as [evs1 E1].
    { unfold process_user.
      destruct (truthy (dict_get u.2 "email")); cbn [negb];
        script_unfold; explore; rewrite <- ?app_assoc; eexists; reflexivity. }
    cbn [for_each]. unfold bind.
    destruct (process_user w u st) as [[[]|e|] st1]; cbn [snd] in *;
      [|by exists evs1..].
    destruct (IH st1) as [evs2 E2]. exists (evs1 ++ evs2).
    by rewrite E2, E1, app_assoc.
Qed.

(** C3.  A record whose [email] field is missing (or holds a value that
    tests false) costs one warning in the round of the [for] loop that
    meets it, and no call at all.  A poll cycle whose queries succeed
    while the record is pending does meet it: the query returns the
    record, and when the candidates before it have had their rounds the
    cycle writes the warning and goes on with the candidates after it;
    in a cycle in which no send leaves the loop (the message can be
    built and no [KeyboardInterrupt] leaves a call) the warning is
    written and the cycle runs to its end.
    Over a whole run, with any number of poll cycles, the record stays
    exactly as it was (so still pending if it was), no [update_one] is
    issued for it, and every call of [send_welcome_email] and every SMTP
    session is for an address that tests true, hence never for this
    record's. *)
Theorem user_without_email_is_skipped w c fuel col id d :
  col !! id = Some d ->
  truthy (dict_get d "email") = false ->
  (forall st,
      process_user w (id, d) st
      = (Ret tt, {| store := store st; trace := trace st ++ [skip_warning d];
                    tick := tick st |}))
  /\ (forall st,
        store st !! id = Some d ->
        query d = true ->
        io w (tick st) = Done ->
        io w (S (tick st)) = Done ->
        exists before after,
          find (store st) = before ++ (id, d) :: after
          /\ forall st1,
               for_each before (process_user w) (loop_start st) = (Ret tt, st1) ->
               process_users w st
               = for_each after (process_user w)
                   {| store := store st1; trace := trace st1 ++ [skip_warning d];
                      tick := tick st1 |})
  /\ (forall text st,
        (forall t, template_file w t = Content text) ->
        (forall v y, exists html, str_format w text v y = Rendered html) ->
        sender_error w = None ->
        (forall t, io w t <> Interrupted) ->
        store st !! id = Some d ->
        query d = true ->
        io w (tick st) = Done ->
        io w (S (tick st)) = Done ->
        (process_users w st).1 = Ret tt
        /\ skip_warning d ∈ trace (process_users w st).2)
  /\ store (program w c fuel (initial col)).2 !! id = Some d
  /\ (forall r, EvUpdate id r ∉ trace (program w c fuel (initial col)).2)
  /\ (forall to_email first_name,
        EvSendCall to_email first_name ∈ trace (program w c fuel (initial col)).2 ->
        truthy to_email = true /\ to_email <> dict_get d "email")
  /\ (forall m r,
        EvSmtp m r ∈ trace (program w c fuel (initial col)).2 ->
        truthy (msg_to m) = true /\ msg_to m <> dict_get d "email").
Proof.
  intros Hid Hd.
  destruct (program_spares w c fuel (initial col) id d Hid Hd)
    as [Hs (evs & Ht & Hev)].
  cbn [initial store trace app] in Hs, Ht. rewrite Ht.
  rewrite Forall_forall in Hev.
  assert (Hreach : forall st,
             store st !! id = Some d ->
             query d = true ->
             io w (tick st) = Done ->
             io w (S (tick st)) = Done ->
             exists before after,
               find (store st) = before ++ (id, d) :: after
               /\ forall st1,
                    for_each before (process_user w) (loop_start st) = (Ret tt, st1) ->
                    process_users w st
                    = for_each after (process_user w)
                        {| store := store st1;
                           trace := trace st1 ++ [skip_warning d];
                           tick := tick st1 |}).
  { intros st Hst Hq Hcount Hfetch.
    assert (Hin : (id, d) ∈ find (store st)) by (by apply find_spec).
    destruct (list_elem_of_split _ _ Hin) as (before & after & Hfind).
    exists before, after. split; [done|]. intros st1 Hbefore.
    rewrite process_users_loop; [|done|done|by intros Hnil; rewrite Hnil in Hin;
                                               apply elem_of_nil in Hin].
    rewrite Hfind, for_each_app. unfold bind at 1. rewrite Hbefore.
    cbn [for_each]. unfold bind at 1. by rewrite process_user_skips. }
  split; [intros st; by apply process_user_skips|].
  split; [exact Hreach|].
  split; [|split; [congruence|]; split; [|split]].
  - intros text st Hfile Hfmt Hsender Hni Hst Hq Hcount Hfetch.
    destruct (Hreach st Hst Hq Hcount Hfetch) as (before & after & _ & Hgo).
    destruct (for_each_returns w text Hfile Hfmt Hsender Hni before (loop_start st))
      as (st1 & E1 & _).
    rewrite (Hgo st1 E1).
    destruct (for_each_returns w text Hfile Hfmt Hsender Hni after
                {| store := store st1; trace := trace st1 ++ [skip_warning d];
                   tick := tick st1 |}) as (st2 & E2 & _).
    destruct (for_each_trace w after
                {| store := store st1; trace := trace st1 ++ [skip_warning d];
                   tick := tick st1 |}) as [evs2 Ht2].
    rewrite E2 in *. cbn [fst snd trace] in *. split; [done|].
    rewrite Ht2. apply elem_of_app. left. apply elem_of_app. right.
    by apply list_elem_of_singleton.
  - intros r Hin. by apply Hev in Hin.
  - intros a n Hin. apply Hev in Hin. cbn in Hin. split; [done|congruence].
  - intros m r Hin. apply Hev in Hin. cbn in Hin. split; [done|congruence].
Qed.

Lemma user_without_email_is_skipped_witness :
  three_users !! 2%N = Some bob_without_email
  /\ truthy (dict_get bob_without_email "email") = false
  /\ store (program calm_world service_mode 3 (initial three_users)).2 !! 2%N
     = Some bob_without_email
  /\ skip_warning bob_without_email
     ∈ trace (process_users calm_world (initial three_users)).2.
Proof.
  assert (H1 : three_users !! 2%N = Some bob_without_email) by reflexivity.
  assert (H2 : truthy (dict_get bob_without_email "email") = false) by reflexivity.
  split; [exact H1|]. split; [exact H2|].
  split.
  - exact (proj1 (proj2 (proj2 (proj2 (user_without_email_is_skipped calm_world
                                         service_mode 3 three_users 2%N
                                         bob_without_email H1 H2))))).
  - vm_compute. repeat constructor.
Defined.





(** The scenario of the specification: of three users, one marked, one
    without address and one pending with an address, a poll cycle sends
    to the third only and marks it, and leaves the other two as they
    were. *)
Example three_users_scenario :
  send_calls (trace (process_users calm_world (initial three_users)).2)
  = [(VStr "ann@example.com", VStr "Ann")]
  /\ List.filter (fun e => match e with EvUpdate _ _ => true | _ => false end)
       (trace (process_users calm_world (initial three_users)).2)
     = [EvUpdate 1%N Done]
  /\ store (process_users calm_world (initial three_users)).2 !! 2%N
     = Some bob_without_email
  /\ store (process_users calm_world (initial three_users)).2 !! 3%N
     = Some cy_already_sent
  /\ store (process_users calm_world (initial three_users)).2 !! 1%N
     = Some (<["welcome_email_sent" := VBool true]> ann).
Proof. repeat split; vm_compute; reflexivity. Qed.

(** ** Rendering the template *)

Lemma append_cons c s t : String c s +:+ t = String c (s +:+ t).
Proof. reflexivity. Qed.

Lemma append_empty t : "" +:+ t = t.
Proof. reflexivity. Qed.

Lemma append_empty_r s : s +:+ "" = s.
Proof.
  induction s as [|c s IH]; [done|]. by rewrite append_cons, IH.
Qed.

Lemma append_assoc s1 s2 s3 : (s1 +:+ s2) +:+ s3 = s1 +:+ s2 +:+ s3.
Proof.
  induction s1 as [|c s1 IH]; [done|]. rewrite !append_cons. by rewrite IH.
Qed.

Lemma put_put_text c s r : put c (put_text s r) = put_text (String c s) r.
Proof. by destruct r as [[]|]. Qed.

Lemma put_text_empty r : put_text "" r = r.
Proof. by destruct r as [[]|]. Qed.

(** Escaped literal text is copied with its braces single again. *)
Lemma format_escape kw s rest :
  format_from kw None (escape s +:+ rest) = put_text s (format_from kw None rest).
Proof.
  induction s as [|c s IH]; cbn [escape].
  - by rewrite append_empty, put_text_empty.
  - destruct (Ascii.eqb_spec c "{") as [->|Hopen].
    { cbn [orb]. rewrite !append_cons. cbn [format_from Ascii.eqb Bool.eqb].
      rewrite IH. apply put_put_text. }
    destruct (Ascii.eqb_spec c "}") as [->|Hclose].
    { cbn [orb]. rewrite !append_cons. cbn [format_from Ascii.eqb Bool.eqb].
      rewrite IH. apply put_put_text. }
    apply Ascii.eqb_neq in Hopen, Hclose.
    cbn [orb]. rewrite append_cons. cbn [format_from].
    rewrite Hopen, Hclose, IH. apply put_put_text.
Qed.

(** The two fields of the call are replaced by their arguments. *)
Lemma format_placeholder v y h rest :
  is_placeholder h = true ->
  format_from (template_kwargs v y) None ("{" +:+ h +:+ "}" +:+ rest)
  = put_text (if String.eqb h "first_name" then py_str v else decimal y)
      (format_from (template_kwargs v y) None rest).
Proof.
  unfold is_placeholder. intros H. apply orb_true_iff in H as [H | H];
    apply String.eqb_eq in H; subst h; reflexivity.
Qed.

Lemma format_fields v y fs :
  forallb is_placeholder (map fst fs) = true ->
  format_from (template_kwargs v y) None (fields_source fs)
  = Some (Rendered (fields_filled (py_str v) (decimal y) fs)).
Proof.
  induction fs as [|[h t] fs IH]; intros H; [done|].
  cbn [map fst forallb] in H. apply andb_prop in H as [Hh Hfs].
  cbn [fields_source fields_filled].
  rewrite format_placeholder, format_escape, IH by done.
  reflexivity.
Qed.

(** [str.format] on a template of the specified shape, for any values. *)
Lemma format_template w t v y :
  forallb is_placeholder (map fst (fields t)) = true ->
  str_format w (template_source t) v y
  = Rendered (substituted (py_str v) (decimal y) t).
Proof.
  intros H. unfold str_format, template_source, substituted.
  by rewrite format_escape, format_fields.
Qed.

(** *** No placeholder token is left *)

Lemma occurs_unfold tok s :
  occurs tok s
  = String.prefix tok s
    || match s with EmptyString => false | String _ s' => occurs tok s' end.
Proof. by destruct s. Qed.

Lemma prefix_cons a tok b s :
  String.prefix (String a tok) (String b s)
  = if ascii_dec a b then String.prefix tok s else false.
Proof. reflexivity. Qed.

Lemma prefix_append tok s : String.prefix tok (tok +:+ s) = true.
Proof.
  induction tok as [|a tok IH]; [by destruct s|].
  rewrite append_cons, prefix_cons. by destruct (ascii_dec a a).
Qed.

Lemma occurs_inside tok s1 s2 : occurs tok (s1 +:+ tok +:+ s2) = true.
Proof.
  induction s1 as [|c s1 IH].
  - rewrite append_empty, occurs_unfold, prefix_append. done.
  - rewrite append_cons. cbn [occurs]. rewrite IH. apply orb_true_r.
Qed.

(** A token that does not begin [s] cannot begin [s] followed by a
    character the token does not hold. *)
Lemma prefix_blocked tok s b r :
  String.prefix tok s = false ->
  mentions b tok = false ->
  String.prefix tok (s +:+ String b r) = false.
Proof.
  revert s. induction tok as [|a tok IH]; intros s Hp Hm.
  - by destruct s.
  - cbn [mentions] in Hm. apply orb_false_iff in Hm as [Hab Hm].
    apply Ascii.eqb_neq in Hab.
    destruct s as [|c s].
    + rewrite append_empty, prefix_cons. by destruct (ascii_dec a b).
    + rewrite append_cons, prefix_cons. rewrite prefix_cons in Hp.
      destruct (ascii_dec a c); [by apply IH | done].
Qed.

Lemma occurs_after_value tok v s :
  mentions "{" v = false ->
  occurs (String "{" tok) s = false ->
  occurs (String "{" tok) (v +:+ s) = false.
Proof.
  intros Hv Hs. induction v as [|a v IH]; [done|].
  cbn [mentions] in Hv. apply orb_false_iff in Hv as [Ha Hv].
  apply Ascii.eqb_neq in Ha.
  rewrite append_cons. cbn [occurs]. rewrite IH by done.
  rewrite prefix_cons. by destruct (ascii_dec "{" a).
Qed.

(** A value that holds no brace and starts with a character foreign to
    the token keeps the token from forming across it. *)
Lemma occurs_around_value tok s1 b v s2 :
  mentions b (String "{" tok) = false ->
  mentions "{" (String b v) = false ->
  occurs (String "{" tok) s1 = false ->
  occurs (String "{" tok) s2 = false ->
  occurs (String "{" tok) (s1 +:+ String b v +:+ s2) = false.
Proof.
  intros Hb Hv H1 H2. induction s1 as [|c s1 IH].
  - rewrite append_empty. by apply occurs_after_value.
  - cbn [occurs] in H1. apply orb_false_iff in H1 as [Hp H1].
    rewrite append_cons. cbn [occurs]. rewrite IH by done.
    rewrite <- append_cons, (append_cons b v s2).
    by rewrite prefix_blocked.
Qed.

Lemma fields_filled_token_free tok fs s :
  mentions "A" (String "{" tok) = false ->
  mentions "2" (String "{" tok) = false ->
  forallb (fun t => negb (occurs (String "{" tok) t)) (map snd fs) = true ->
  occurs (String "{" tok) s = false ->
  occurs (String "{" tok) (s +:+ fields_filled "Ada" "2024" fs) = false.
Proof.
  intros HA H2 Hfs. revert s.
  induction fs as [|[h t] fs IH]; intros s Hs.
  - cbn [fields_filled]. by rewrite append_empty_r.
  - cbn [map snd forallb] in Hfs. apply andb_prop in Hfs as [Ht Hfs].
    apply negb_true_iff in Ht. cbn [fields_filled].
    destruct (String.eqb h "first_name");
      apply occurs_around_value; auto.
Qed.

Lemma token_free_each t :
  token_free t = true ->
  (occurs "{first_name}" (lead t) = false
   /\ forallb (fun s => negb (occurs "{first_name}" s)) (map snd (fields t)) = true)
  /\ (occurs "{year}" (lead t) = false
      /\ forallb (fun s => negb (occurs "{year}" s)) (map snd (fields t)) = true).
Proof.
  unfold token_free. cbn [forallb]. intros H.
  apply andb_prop in H as [Hl Hf]. apply andb_prop in Hl as [Hl1 Hl2].
  apply negb_true_iff in Hl1, Hl2.
  rewrite forallb_forall in Hf.
  repeat split; try done; apply forallb_forall; intros s Hs;
    apply Hf in Hs; apply andb_prop in Hs; tauto.
Qed.

Lemma fields_filled_holds first_name year fs :
  (In "first_name" (map fst fs) ->
   exists pre post, fields_filled first_name year fs = pre +:+ first_name +:+ post)
  /\ (In "year" (map fst fs) ->
      exists pre post, fields_filled first_name year fs = pre +:+ year +:+ post).
Proof.
  induction fs as [|[h t] fs [IH1 IH2]]; [by split|].
  cbn [map fst In fields_filled]. split; intros [->|Hin].
  - exists "", (t +:+ fields_filled first_name year fs). reflexivity.
  - destruct (IH1 Hin) as (pre & post & ->).
    exists ((if String.eqb h "first_name" then first_name else year)
            +:+ t +:+ pre), post.
    by rewrite !append_assoc.
  - exists "", (t +:+ fields_filled first_name year fs). reflexivity.
  - destruct (IH2 Hin) as (pre & post & ->).
    exists ((if String.eqb h "first_name" then first_name else year)
            +:+ t +:+ pre), post.
    by rewrite !append_assoc.
Qed.

(** C8.  For a template of the specified shape (literal text, which may
    hold escaped braces but shows no placeholder token itself, with the
    fields [{first_name}] and [{year}] in between), rendering with first
    name "Ada" and year 2024 succeeds and gives the literal text with
    "Ada" and "2024" at the positions of the fields; the output holds
    neither [{first_name}] nor [{year}], holds "Ada" and "2024" where
    the template has the fields, and is the HTML body of the message
    that [send_welcome_email] builds and takes to the SMTP session (a
    message is built when [GMAIL_USER] is ASCII). *)
Theorem rendering_substitutes_placeholders w t :
  forallb is_placeholder (map fst (fields t)) = true ->
  token_free t = true ->
  str_format w (template_source t) (VStr "Ada") 2024
  = Rendered (substituted "Ada" "2024" t)
  /\ occurs "{first_name}" (substituted "Ada" "2024" t) = false
  /\ occurs "{year}" (substituted "Ada" "2024" t) = false
  /\ (In "first_name" (map fst (fields t)) ->
      occurs "Ada" (substituted "Ada" "2024" t) = true)
  /\ (In "year" (map fst (fields t)) ->
      occurs "2024" (substituted "Ada" "2024" t) = true)
  /\ (forall to_email st,
        template_file w (tick st) = Content (template_source t) ->
        now_year w (tick st) = 2024%Z ->
        sender_error w = None ->
        exists m,
          smtp_sessions (trace (send_welcome_email w to_email (VStr "Ada") st).2)
          = smtp_sessions (trace st) ++ [m]
          /\ msg_html m = substituted "Ada" "2024" t).
Proof.
  intros Hfields Hfree.
  pose proof (format_template w t (VStr "Ada") 2024 Hfields) as Hfmt.
  change (py_str (VStr "Ada")) with "Ada" in Hfmt.
  change (decimal 2024) with "2024" in Hfmt.
  destruct (token_free_each t Hfree) as [[Hl1 Hf1] [Hl2 Hf2]].
  destruct (fields_filled_holds "Ada" "2024" (fields t)) as [Hin1 Hin2].
  split; [exact Hfmt|]. split; [|split; [|split; [|split]]].
  - unfold substituted. by apply fields_filled_token_free.
  - unfold substituted. by apply fields_filled_token_free.
  - intros Hin. destruct (Hin1 Hin) as (pre & post & E).
    unfold substituted. rewrite E, <- append_assoc. apply occurs_inside.
  - intros Hin. destruct (Hin2 Hin) as (pre & post & E).
    unfold substituted. rewrite E, <- append_assoc. apply occurs_inside.
  - intros to_email st Hfile Hyear Hsender. script_unfold. cbn [tick trace store].
    rewrite Hfile. cbv beta iota; cbn [tick trace store].
    rewrite Hyear, Hfmt. cbv beta iota; cbn [tick trace store].
    rewrite Hsender. explore;
      (eexists; split;
       [unfold smtp_sessions; rewrite <- ?app_assoc, omap_app; reflexivity
       |reflexivity]).
Qed.

Lemma rendering_substitutes_placeholders_witness :
  forallb is_placeholder (map fst (fields sample_template)) = true
  /\ token_free sample_template = true
  /\ str_format calm_world (template_source sample_template) (VStr "Ada") 2024
     = Rendered "<p>Welcome, Ada!</p><style>p { margin: 0 }</style><p>(c) 2024 WildVision</p>".
Proof.
  assert (H1 : forallb is_placeholder (map fst (fields sample_template)) = true)
    by reflexivity.
  assert (H2 : token_free sample_template = true) by reflexivity.
  split; [exact H1|]. split; [exact H2|].
  exact (proj1 (rendering_substitutes_placeholders calm_world sample_template H1 H2)).
Defined.

(** ** Exit status *)

Lemma process_user_routine w u st :
  rel (fun _ _ => True) (fun e => routine e = true) st (process_user w u st).2.
Proof.
  unfold process_user.
  destruct (truthy (dict_get u.2 "email")); cbn [negb];
    script_unfold; explore;
    (split; [done|]; cbn [trace]; eexists;
     split; [rewrite <- ?app_assoc; reflexivity | by repeat constructor]).
Qed.

Lemma loop_routine w secs fuel st :
  extends (fun e => routine e = true) (trace st)
    (trace (while_true fuel (poll_cycle w secs) st).2).
Proof.
  refine (proj2 (while_true_rel w (fun _ _ => True) (fun e => routine e = true)
                   (fun _ => True) (fun _ _ => True)
                   _ _ _ _ _ _ _ secs fuel st I)); try done.
  - by intros [].
  - intros u st' _ _. apply process_user_routine.
Qed.

Lemma process_user_exits w u st : exits_with_1 (process_user w u st).1.
Proof.
  unfold process_user.
  destruct (truthy (dict_get u.2 "email")); cbn [negb];
    script_unfold; explore; done.
Qed.

Lemma for_each_exits w users st :
  exits_with_1 (for_each users (process_user w) st).1.
Proof.
  revert st. induction users as [|u users IH]; intros st; [done|].
  pose proof (process_user_exits w u st) as H.
  cbn [for_each]. unfold bind.
  destruct (process_user w u st) as [[[]|e|] st1]; [apply IH|exact H|done].
Qed.

Lemma process_users_exits w st : exits_with_1 (process_users w st).1.
Proof.
  unfold process_users, count_documents, fetch. monad_unfold.
  cbn [tick trace store].
  destruct (io w (tick st)); cbv beta iota; cbn [tick trace store]; [|done..].
  destruct (length (find (store st)) =? 0)%nat; cbv beta iota;
    cbn [tick trace store]; [done|].
  destruct (io w (S (tick st))); cbv beta iota; cbn [tick trace store];
    [|done..].
  apply for_each_exits.
Qed.

Lemma poll_cycle_exits w secs st : exits_with_1 (poll_cycle w secs st).1.
Proof.
  pose proof (process_users_exits w st) as H.
  unfold poll_cycle, sleep. unfold bind at 1.
  destruct (process_users w st) as [[[]|e|] st1]; [|exact H|done].
  monad_unfold. destruct (sleep_refusal w secs); cbv beta iota; [done|].
  cbn [tick trace store]. by destruct (io w (tick st1)).
Qed.

(** [while True] ends by an exception or not at all. *)
Lemma loop_ends w secs fuel st :
  match (while_true fuel (poll_cycle w secs) st).1 with
  | Ret _ => False
  | Raise (SystemExit code) => code = 1%Z
  | _ => True
  end.
Proof.
  revert st. induction fuel as [|fuel IH]; intros st; [done|].
  pose proof (poll_cycle_exits w secs st) as H.
  cbn [while_true]. unfold bind.
  destruct (poll_cycle w secs st) as [[[]|[code| |msg]|] st1];
    [apply IH|exact H|done..].
Qed.

Lemma routine_quiet tr : Forall (fun e => routine e = true) tr -> quiet tr.
Proof.
  intros H e He. rewrite Forall_forall in H. apply H.
  by eapply last_Some_elem_of.
Qed.

Lemma quiet_snoc tr e : routine e = true -> quiet (tr ++ [e]).
Proof. intros H e'. rewrite last_snoc. congruence. Qed.

Lemma closing_lines_not_routine a :
  routine graceful_line = false
  /\ routine (test_sent_line a) = false
  /\ routine (test_failed_line a) = false
  /\ routine (unexpected_line a) = false.
Proof.
  unfold test_sent_line, test_failed_line, unexpected_line, routine, routine_text.
  split; [reflexivity|]. split; [|split]; rewrite prefix_append; reflexivity.
Qed.

Lemma quiet_not_closing tr :
  quiet tr ->
  ~ (ends_in_graceful_interrupt tr \/ ends_in_successful_test_send tr
     \/ ends_in_failed_test_send tr \/ ends_in_unexpected_error tr).
Proof.
  intros Hq [H | [[a H] | [[a H] | [a H]]]]; apply Hq in H;
    [destruct (closing_lines_not_routine "") as (H1 & H2 & H3 & H4)
    |destruct (closing_lines_not_routine a) as (H1 & H2 & H3 & H4)..];
    congruence.
Qed.

(** How a run ends and what its last line is. *)
Lemma run_classification w c fuel col :
  (exit_status (program w c fuel (initial col)).1 = Some 0%Z
   /\ (ends_in_graceful_interrupt (trace (program w c fuel (initial col)).2)
       \/ ends_in_successful_test_send (trace (program w c fuel (initial col)).2)
       \/ ends_in_failed_test_send (trace (program w c fuel (initial col)).2)
       \/ (c = HelpRequested /\ trace (program w c fuel (initial col)).2 = [])))
  \/ (exit_status (program w c fuel (initial col)).1 = Some 1%Z
      /\ ends_in_unexpected_error (trace (program w c fuel (initial col)).2))
  \/ (exit_status (program w c fuel (initial col)).1 <> Some 0%Z
      /\ quiet (trace (program w c fuel (initial col)).2)
      /\ (c = HelpRequested -> trace (program w c fuel (initial col)).2 <> [])).
Proof.
  destruct (environment_valid w) eqn:Hv.
  2: { destruct (program_invalid w c fuel (initial col) Hv) as (text & -> & Hr).
       right; right. cbn [fst snd trace exit_status initial].
       split; [done|]. split; [by apply quiet_snoc|]. by intros _. }
  rewrite program_valid by done. unfold main, parse_args.
  destruct c as [a| |]; monad_unfold.
  2: { left. cbn. split; [done|]. by repeat right. }
  2: { right; right. cbn. split; [done|]. split; [|done]. by intros e. }
  destruct (test a).
  { destruct (test_email a) as [address|]; cbn [env_truthy negb].
    2: { right; right. cbn [fst snd trace exit_status initial].
         split; [done|]. split; [by apply quiet_snoc|done]. }
    destruct (String.eqb address ""); cbn [negb default].
    { right; right. cbn [fst snd trace exit_status initial].
      split; [done|]. split; [by apply quiet_snoc|done]. }
    script_unfold. cbn [initial tick trace store]. explore;
      cbn [exit_status];
      first
        [ left; split; [done|]; right; left; eexists; apply last_snoc
        | left; split; [done|]; right; right; left; eexists; apply last_snoc
        | right; right; split; [done|]; split; [by apply quiet_snoc|done] ]. }
  unfold connect. monad_unfold. cbn [initial tick trace store].
  destruct (io w 0); cbv beta iota; cbn [tick trace store].
  2, 3: right; right; cbn [fst snd trace exit_status];
        (split; [done|]; split; [by apply quiet_snoc|done]).
  match goal with
  | |- context [while_true fuel ?b ?s] =>
      pose proof (loop_routine w (interval a) fuel s) as (evs & Ht & Hev);
      pose proof (loop_ends w (interval a) fuel s) as Hend;
      destruct (while_true fuel b s) as [[[]|[code| |cause]|] st2]
  end; cbn [fst snd trace main_handlers exit_status] in *.
  - done.
  - right; right. subst code. split; [done|]. split; [|done].
    rewrite Ht. apply routine_quiet. apply Forall_app. split; [|done].
    by repeat constructor.
  - left. split; [done|]. left. apply last_snoc.
  - right; left. split; [done|]. eexists. apply last_snoc.
  - right; right. split; [done|]. split; [|done].
    rewrite Ht. apply routine_quiet. apply Forall_app. split; [|done].
    by repeat constructor.
Qed.

Lemma unexpected_error_apart tr :
  ends_in_unexpected_error tr ->
  ~ (ends_in_graceful_interrupt tr \/ ends_in_successful_test_send tr
     \/ ends_in_failed_test_send tr \/ tr = []).
Proof.
  unfold ends_in_graceful_interrupt.
  intros [cause H] [H' | [[a H'] | [[a H'] | ->]]];
    [rewrite H in H'; vm_compute in H'; discriminate..|discriminate].
Qed.

(** C9, as the code has it.  The exit status is 0 exactly when the run
    ends in the graceful interrupt of service mode, or in a test send
    that returned, whether the relay accepted the message or not, or in
    the help exit of the argument parser.  It is 1 when a required
    environment variable is missing, when [--test] comes without an
    address, when the connection to the store fails, and when the run
    ends in the handler for an unexpected error. *)
Theorem exit_status_of_a_run w c fuel col :
  (exit_status (program w c fuel (initial col)).1 = Some 0%Z
   <-> ends_in_graceful_interrupt (trace (program w c fuel (initial col)).2)
       \/ ends_in_successful_test_send (trace (program w c fuel (initial col)).2)
       \/ ends_in_failed_test_send (trace (program w c fuel (initial col)).2)
       \/ (c = HelpRequested /\ trace (program w c fuel (initial col)).2 = []))
  /\ (environment_valid w = false ->
      exit_status (program w c fuel (initial col)).1 = Some 1%Z)
  /\ (forall a,
        c = Parsed a -> test a = true -> env_truthy (test_email a) = false ->
        exit_status (program w c fuel (initial col)).1 = Some 1%Z)
  /\ (forall a cause,
        c = Parsed a -> test a = false -> io w 0 = Fails cause ->
        exit_status (program w c fuel (initial col)).1 = Some 1%Z)
  /\ (ends_in_unexpected_error (trace (program w c fuel (initial col)).2) ->
      exit_status (program w c fuel (initial col)).1 = Some 1%Z).
Proof.
  assert (Hinvalid : environment_valid w = false ->
                     exit_status (program w c fuel (initial col)).1 = Some 1%Z).
  { intros Hv. by destruct (program_invalid w c fuel (initial col) Hv)
      as (text & -> & _). }
  pose proof (run_classification w c fuel col)
    as [[H0 Hc] | [[H1 Hu] | (Hn & Hq & Hh)]].
  - split; [by split|]. split; [done|]. split; [|split].
    + intros a -> Ht He. destruct (environment_valid w) eqn:Hv; [|by apply Hinvalid].
      rewrite program_valid by done. unfold main, parse_args. monad_unfold.
      by rewrite Ht, He.
    + intros a cause -> Ht Hio.
      destruct (environment_valid w) eqn:Hv; [|by apply Hinvalid].
      rewrite program_valid by done. unfold main, parse_args, connect.
      monad_unfold. rewrite Ht. cbn [initial tick]. by rewrite Hio.
    + intros Hu. exfalso. apply (unexpected_error_apart _ Hu).
      destruct Hc as [? | [? | [? | [_ ?]]]]; auto.
  - split; [|by repeat split].
    split; [congruence|]. intros Hc. exfalso.
    apply (unexpected_error_apart _ Hu).
    destruct Hc as [? | [? | [? | [_ ?]]]]; auto.
  - split; [|split; [done|split; [|split]]].
    + split; [done|]. intros [H | [H | [H | [-> H]]]]; exfalso;
        [apply (quiet_not_closing _ Hq); auto..|by apply Hh].
    + intros a -> Ht He. destruct (environment_valid w) eqn:Hv; [|by apply Hinvalid].
      rewrite program_valid by done. unfold main, parse_args. monad_unfold.
      by rewrite Ht, He.
    + intros a cause -> Ht Hio.
      destruct (environment_valid w) eqn:Hv; [|by apply Hinvalid].
      rewrite program_valid by done. unfold main, parse_args, connect.
      monad_unfold. rewrite Ht. cbn [initial tick]. by rewrite Hio.
    + intros Hu. exfalso. apply (quiet_not_closing _ Hq). auto.
Qed.

(** C9, as stated, fails: a test-mode run whose send the relay rejects
    ends neither in a graceful interrupt nor in a successful test send,
    and still exits with status 0; so does a run that only prints the
    help of the argument parser. *)
Lemma failed_test_send_exits_0 :
  program calm_world HelpRequested 3 (initial three_users)
  = (Raise (SystemExit 0), initial three_users)
  /\ exit_status
    (program world_with_failing_relay (test_mode "qa@example.com") 3
       (initial three_users)).1 = Some 0%Z
  /\ last (trace (program world_with_failing_relay (test_mode "qa@example.com") 3
                    (initial three_users)).2)
     = Some (EvLog ERROR "Failed to send test email to qa@example.com.")
  /\ ~ ends_in_graceful_interrupt
         (trace (program world_with_failing_relay (test_mode "qa@example.com") 3
                   (initial three_users)).2)
  /\ ~ ends_in_successful_test_send
         (trace (program world_with_failing_relay (test_mode "qa@example.com") 3
                   (initial three_users)).2).
Proof.
  assert (H : last (trace (program world_with_failing_relay
                             (test_mode "qa@example.com") 3
                             (initial three_users)).2)
              = Some (EvLog ERROR "Failed to send test email to qa@example.com."))
    by (vm_compute; reflexivity).
  split; [reflexivity|].
  split; [vm_compute; reflexivity|]. split; [exact H|]. split.
  - unfold ends_in_graceful_interrupt. rewrite H. discriminate.
  - intros [a Ha]. rewrite H in Ha. discriminate.
Qed.

(* ===================================================================== *)
(** * Further properties of the script                                    *)
(* ===================================================================== *)

(** ** Laws of the whole trace *)

Lemma count_events_app f tr1 tr2 :
  count_events f (tr1 ++ tr2) = count_events f tr1 + count_events f tr2.
Proof. unfold count_events. by rewrite List.filter_app, length_app. Qed.

(** A law [Q] of runs of events that holds of the empty run and of two
    runs put together is lifted from one round of the [for] loop to a
    poll cycle, to the loop of [main] and to a whole run. *)
Section TraceLaw.
Context (w : world) (Q : list event -> Prop).
Hypothesis Q_nil : Q [].
Hypothesis Q_app : forall a b, Q a -> Q b -> Q (a ++ b).
Hypothesis Q_log : forall l text, Q [EvLog l text].
Hypothesis Q_count : forall r, Q [EvCount r].
Hypothesis Q_find : forall r, Q [EvFind r].
Hypothesis body :
  forall u st, grows Q (trace st) (trace (process_user w u st).2).

Lemma grows_refl tr : grows Q tr tr.
Proof. exists []. by rewrite app_nil_r. Qed.

Lemma grows_trans tr1 tr2 tr3 :
  grows Q tr1 tr2 -> grows Q tr2 tr3 -> grows Q tr1 tr3.
Proof.
  intros (evs1 & -> & H1) (evs2 & -> & H2).
  exists (evs1 ++ evs2). rewrite app_assoc. auto.
Qed.

Lemma Q_each evs : Forall (fun e => Q [e]) evs -> Q evs.
Proof.
  induction 1 as [|e evs He _ IH]; [done|].
  change (e :: evs) with ([e] ++ evs). by apply Q_app.
Qed.

Lemma grows_each tr evs : Forall (fun e => Q [e]) evs -> grows Q tr (tr ++ evs).
Proof. intros H. exists evs. split; [done|]. by apply Q_each. Qed.

Lemma for_each_grows users st :
  grows Q (trace st) (trace (for_each users (process_user w) st).2).
Proof.
  revert st. induction users as [|u users IH]; intros st; [apply grows_refl|].
  pose proof (body u st) as Hb. cbn [for_each]. unfold bind.
  destruct (process_user w u st) as [[[]|e|] st1]; cbn [snd] in *; [|done..].
  eapply grows_trans; [exact Hb|apply IH].
Qed.

Ltac law_events :=
  rewrite <- ?app_assoc; cbn [app]; apply grows_each; repeat constructor; auto.

Lemma process_users_grows st :
  grows Q (trace st) (trace (process_users w st).2).
Proof.
  unfold process_users, count_documents, fetch. monad_unfold.
  cbn [tick trace store].
  destruct (io w (tick st)); cbv beta iota; cbn [tick trace store snd];
    [|law_events..].
  destruct (length (find (store st)) =? 0)%nat; cbv beta iota;
    cbn [tick trace store snd]; [law_events|].
  destruct (io w (S (tick st))); cbv beta iota; cbn [tick trace store snd];
    [|law_events..].
  eapply grows_trans; [|apply for_each_grows]. cbn [trace]. law_events.
Qed.

Lemma poll_cycle_grows secs st :
  (forall r, Q [EvSleep secs r]) ->
  grows Q (trace st) (trace (poll_cycle w secs st).2).
Proof.
  intros Q_sleep. pose proof (process_users_grows st) as H.
  unfold poll_cycle, sleep. unfold bind at 1.
  destruct (process_users w st) as [[[]|e|] st1]; cbn [snd] in *; [|done..].
  eapply grows_trans; [exact H|].
  monad_unfold. destruct (sleep_refusal w secs); cbv beta iota; cbn [tick trace store snd].
  - law_events.
  - destruct (io w (tick st1)); cbv beta iota; cbn [tick trace store snd];
      law_events.
Qed.

Lemma while_true_grows secs fuel st :
  (forall r, Q [EvSleep secs r]) ->
  grows Q (trace st) (trace (while_true fuel (poll_cycle w secs) st).2).
Proof.
  intros Q_sleep. revert st.
  induction fuel as [|fuel IH]; intros st; [apply grows_refl|].
  pose proof (poll_cycle_grows secs st Q_sleep) as H.
  cbn [while_true]. unfold bind.
  destruct (poll_cycle w secs st) as [[[]|e|] st1]; cbn [snd] in *; [|done..].
  eapply grows_trans; [exact H|apply IH].
Qed.

Lemma program_grows c fuel st :
  (forall a r, c = Parsed a -> Q [EvSleep (interval a) r]) ->
  (forall uri db r, Q [EvConnect uri db r]) ->
  (forall address st',
      grows Q (trace st')
        (trace (send_welcome_email w (VStr address) (VStr "Test User") st').2)) ->
  grows Q (trace st) (trace (program w c fuel st).2).
Proof.
  intros Q_sleep Q_conn Q_send.
  destruct (environment_valid w) eqn:Hv.
  2: { destruct (program_invalid w c fuel st Hv) as (text & -> & _).
       cbn [snd trace]. law_events. }
  rewrite program_valid by done. unfold main, parse_args.
  destruct c as [a| |]; monad_unfold; [|apply grows_refl..].
  destruct (test a).
  { destruct (env_truthy (test_email a)); cbn [negb snd trace]; [|law_events].
    unfold send_test_email. monad_unfold. cbn [tick trace store].
    match goal with
    | |- context [send_welcome_email w ?x ?y ?s] =>
        pose proof (Q_send (default "" (test_email a)) s) as H;
        destruct (send_welcome_email w x y s) as [[[]|e|] st1]
    end; cbn [snd trace] in *;
      (eapply grows_trans; [|eapply grows_trans; [exact H|]]);
      cbn [trace]; first [apply grows_refl | law_events]. }
  unfold connect. monad_unfold. cbn [tick trace store].
  destruct (io w (tick st)); cbv beta iota; cbn [tick trace store snd];
    [|law_events..].
  match goal with
  | |- context [while_true fuel ?b ?s] =>
      pose proof (while_true_grows (interval a) fuel s
                    (fun r => Q_sleep a r eq_refl)) as H;
      destruct (while_true fuel b s) as [[[]|[code| |msg]|] st2];
      (eapply grows_trans; [|eapply grows_trans; [exact H|]])
  end;
    cbn [snd store trace tick main_handlers];
    first [apply grows_refl | law_events].
Qed.
End TraceLaw.

(** In every path of one call or one round, the events added are listed
    and the law is checked on the list. *)
Ltac law_of_paths :=
  explore; rewrite <- ?app_assoc; eexists; (split; [reflexivity|]);
  cbn; rewrite ?Forall_cons, ?Forall_nil; try lia; try tauto.

(** ** Marks and deliveries *)

(** X1.  Over a whole run, in either mode and whatever fails, the
    program never issues more updates than SMTP sessions have completed:
    a record is only ever marked after a message has gone out. *)
Theorem updates_follow_deliveries w c fuel col :
  count_events is_update (trace (program w c fuel (initial col)).2)
  <= count_events is_delivered (trace (program w c fuel (initial col)).2).
Proof.
  destruct (program_grows w
              (fun evs => count_events is_update evs
                          <= count_events is_delivered evs))
    with (c := c) (fuel := fuel) (st := initial col) as (evs & -> & H);
    try (intros; cbn; lia); [| | |exact H].
  - intros a b Ha Hb. rewrite !count_events_app. lia.
  - intros u st. unfold grows, process_user.
    destruct (truthy (dict_get u.2 "email")); cbn [negb];
      script_unfold; law_of_paths.
  - intros address st. unfold grows. script_unfold. law_of_paths.
Qed.

(** X2.  The template file is read once for every call of
    [send_welcome_email], never cached and never read otherwise; an SMTP
    session is opened only after such a read, and so there are never
    more sessions than calls. *)
Theorem template_is_read_once_per_send w c fuel col :
  count_events is_template_read (trace (program w c fuel (initial col)).2)
  = count_events is_send_call (trace (program w c fuel (initial col)).2)
  /\ count_events is_session (trace (program w c fuel (initial col)).2)
     <= count_events is_send_call (trace (program w c fuel (initial col)).2).
Proof.
  destruct (program_grows w
              (fun evs => count_events is_template_read evs
                          = count_events is_send_call evs
                          /\ count_events is_session evs
                             <= count_events is_send_call evs))
    with (c := c) (fuel := fuel) (st := initial col) as (evs & -> & H);
    try (intros; cbn; lia); [| | |exact H].
  - intros a b Ha Hb. rewrite !count_events_app. lia.
  - intros u st. unfold grows, process_user.
    destruct (truthy (dict_get u.2 "email")); cbn [negb];
      script_unfold; law_of_paths.
  - intros address st. unfold grows. script_unfold. law_of_paths.
Qed.

(** ** The interval *)

(** X3.  Every sleep of a run lasts the interval given on the command
    line: the loop never sleeps for another duration. *)
Theorem every_sleep_lasts_the_interval w a fuel col secs r :
  EvSleep secs r ∈ trace (program w (Parsed a) fuel (initial col)).2 ->
  secs = interval a.
Proof.
  destruct (program_grows w
              (Forall (fun e => match e with
                                | EvSleep s _ => s = interval a
                                | _ => True
                                end)))
    with (c := Parsed a) (fuel := fuel) (st := initial col) as (evs & -> & H);
    try (intros; by repeat constructor).
  - intros x y Hx Hy. by apply Forall_app.
  - intros u st. unfold grows, process_user.
    destruct (truthy (dict_get u.2 "email")); cbn [negb];
      script_unfold; law_of_paths.
  - intros a' r' [= <-]. by repeat constructor.
  - intros address st. unfold grows. script_unfold. law_of_paths.
  - cbn [initial trace app]. intros Hin.
    rewrite Forall_forall in H. by apply H in Hin.
Qed.

Lemma every_sleep_lasts_the_interval_witness :
  EvSleep 60 Done
    ∈ trace (program calm_world
               (Parsed {| test := false; test_email := None; interval := 60 |}) 2
               (initial three_users)).2
  /\ 60%Z = interval {| test := false; test_email := None; interval := 60 |}.
Proof.
  assert (H : EvSleep 60 Done
                ∈ trace (program calm_world
                           (Parsed {| test := false; test_email := None;
                                      interval := 60 |}) 2
                           (initial three_users)).2)
    by (vm_compute; repeat constructor).
  split; [exact H|].
  exact (every_sleep_lasts_the_interval calm_world
           {| test := false; test_email := None; interval := 60 |} 2
           three_users 60 Done H).
Defined.

Lemma process_user_no_poll w u st :
  grows (fun evs => count_events is_poll evs = 0 /\ count_events is_slept evs = 0)
    (trace st) (trace (process_user w u st).2).
Proof.
  unfold grows, process_user.
  destruct (truthy (dict_get u.2 "email")); cbn [negb];
    script_unfold; law_of_paths.
Qed.

Lemma for_each_no_poll w users st :
  grows (fun evs => count_events is_poll evs = 0 /\ count_events is_slept evs = 0)
    (trace st) (trace (for_each users (process_user w) st).2).
Proof.
  apply for_each_grows.
  - done.
  - intros a b Ha Hb. rewrite !count_events_app. lia.
  - apply process_user_no_poll.
Qed.

(** One poll cycle asks the store for the count exactly once, and has
    slept to the end exactly when it returns. *)
Lemma poll_cycle_counts w secs st :
  exists evs,
    trace (poll_cycle w secs st).2 = trace st ++ evs
    /\ count_events is_poll evs = 1
    /\ count_events is_slept evs
       = match (poll_cycle w secs st).1 with Ret _ => 1 | _ => 0 end.
Proof.
  unfold poll_cycle, process_users, count_documents, fetch, sleep. monad_unfold.
  cbn [tick trace store].
  destruct (io w (tick st)); cbv beta iota; cbn [tick trace store fst snd].
  2, 3: rewrite <- ?app_assoc; eexists; (split; [reflexivity|]); by cbn.
  destruct (length (find (store st)) =? 0)%nat; cbv beta iota;
    cbn [tick trace store fst snd].
  { destruct (sleep_refusal w secs); cbv beta iota; cbn [tick trace store fst snd].
    - rewrite <- ?app_assoc; eexists; (split; [reflexivity|]); by cbn.
    - destruct (io w (S (tick st))); cbv beta iota; cbn [tick trace store fst snd];
        rewrite <- ?app_assoc; eexists; (split; [reflexivity|]); by cbn. }
  destruct (io w (S (tick st))); cbv beta iota; cbn [tick trace store fst snd].
  2, 3: rewrite <- ?app_assoc; eexists; (split; [reflexivity|]); by cbn.
  match goal with
  | |- context [for_each ?us ?b ?s] =>
      destruct (for_each_no_poll w us s) as (evs & E & Hp & Hs);
      destruct (for_each us b s) as [[[]|e|] st1]
  end; cbn [tick trace store fst snd] in *.
  2, 3: rewrite E, <- ?app_assoc; eexists; (split; [reflexivity|]);
        rewrite !count_events_app, Hp, Hs; by cbn.
  destruct (sleep_refusal w secs); cbv beta iota; cbn [tick trace store fst snd].
  - rewrite E, <- ?app_assoc; eexists; (split; [reflexivity|]);
      rewrite !count_events_app, Hp, Hs; by cbn.
  - destruct (io w (tick st1)); cbv beta iota; cbn [tick trace store fst snd];
      rewrite E, <- ?app_assoc; eexists; (split; [reflexivity|]);
      rewrite !count_events_app, Hp, Hs; by cbn.
Qed.

Lemma loop_alternates w secs fuel st :
  exists evs,
    trace (while_true fuel (poll_cycle w secs) st).2 = trace st ++ evs
    /\ count_events is_poll evs <= S (count_events is_slept evs)
    /\ count_events is_slept evs <= count_events is_poll evs
    /\ count_events is_poll evs <= fuel.
Proof.
  revert st. induction fuel as [|fuel IH]; intros st.
  - exists []. cbn. rewrite app_nil_r. repeat split; lia.
  - destruct (poll_cycle_counts w secs st) as (evs1 & E1 & Hp1 & Hs1).
    cbn [while_true]. unfold bind.
    destruct (poll_cycle w secs st) as [[[]|e|] st1]; cbn [fst snd] in *.
    + destruct (IH st1) as (evs2 & E2 & Hp2 & Hs2 & Hf2).
      exists (evs1 ++ evs2). rewrite E2, E1, app_assoc, !count_events_app.
      repeat split; lia.
    + exists evs1. repeat split; [done|lia..].
    + exists evs1. repeat split; [done|lia..].
Qed.

(** X4.  Polls and sleeps alternate: over a whole run the number of poll
    cycles begun is at most one more than the number of sleeps that ran
    to their end, never less than it, and at most the number of rounds
    the loop was given. *)
Theorem polls_alternate_with_sleeps w c fuel col :
  count_events is_poll (trace (program w c fuel (initial col)).2)
  <= S (count_events is_slept (trace (program w c fuel (initial col)).2))
  /\ count_events is_slept (trace (program w c fuel (initial col)).2)
     <= count_events is_poll (trace (program w c fuel (initial col)).2)
  /\ count_events is_poll (trace (program w c fuel (initial col)).2) <= fuel.
Proof.
  destruct (environment_valid w) eqn:Hv.
  2: { destruct (program_invalid w c fuel (initial col) Hv) as (text & -> & _).
       cbn. lia. }
  rewrite program_valid by done. unfold main, parse_args.
  destruct c as [a| |]; monad_unfold; [|cbn; lia..].
  destruct (test a).
  { destruct (env_truthy (test_email a)); cbn [negb]; [|cbn; lia].
    script_unfold. cbn [initial tick trace store]. explore; cbn; lia. }
  unfold connect. monad_unfold. cbn [initial tick trace store].
  destruct (io w 0); cbv beta iota; cbn [tick trace store snd]; [|cbn; lia..].
  match goal with
  | |- context [while_true fuel ?b ?s] =>
      destruct (loop_alternates w (interval a) fuel s) as (evs & E & Hp & Hs & Hf);
      destruct (while_true fuel b s) as [[[]|[code| |msg]|] st2]
  end; cbn [snd trace main_handlers] in *; monad_unfold; cbn [snd trace];
    rewrite E, !count_events_app; cbn; lia.
Qed.

(** ** Who is sent to in a poll cycle *)

Lemma find_NoDup (c : collection) : NoDup (find c).*1.
Proof.
  eapply sublist_NoDup; [apply (NoDup_fst_map_to_list c)|].
  unfold find. apply fmap_sublist, sublist_filter.
Qed.

Lemma attempts_app us1 us2 : attempts (us1 ++ us2) = attempts us1 ++ attempts us2.
Proof. apply omap_app. Qed.

(** Whatever happens in its round, a candidate with an address costs one
    call of [send_welcome_email], and a candidate without none. *)
Lemma process_user_calls w u st :
  send_calls (trace (process_user w u st).2)
  = send_calls (trace st) ++ attempts [u].
Proof.
  unfold process_user, attempts. cbn [omap list_omap].
  destruct (truthy (dict_get u.2 "email")); cbn [negb];
    script_unfold; explore;
    rewrite <- ?app_assoc, send_calls_app; reflexivity.
Qed.

Lemma for_each_calls w users st :
  exists k,
    send_calls (trace (for_each users (process_user w) st).2)
    = send_calls (trace st) ++ attempts (take k users).
Proof.
  revert st. induction users as [|u users IH]; intros st.
  - exists 0. cbn. by rewrite app_nil_r.
  - pose proof (process_user_calls w u st) as Hu.
    cbn [for_each]. unfold bind.
    destruct (process_user w u st) as [[[]|e|] st1]; cbn [snd] in *.
    + destruct (IH st1) as [k Hk]. exists (S k).
      rewrite Hk, Hu, <- app_assoc. f_equal.
      change (take (S k) (u :: users)) with ([u] ++ take k users).
      by rewrite attempts_app.
    + exists 1. rewrite Hu. reflexivity.
    + exists 1. rewrite Hu. reflexivity.
Qed.

(** X5.  In every poll cycle, whatever fails, the calls of
    [send_welcome_email] are those of the first pending users the query
    returned, in order, each with its own address and first name.  The
    query returns every record at most once, and only records of the
    collection whose flag is absent or [False]: within a cycle nobody is
    sent to twice, and nobody who is marked is sent to at all. *)
Theorem cycle_sends_follow_the_query w st :
  (exists k,
      send_calls (trace (process_users w st).2)
      = send_calls (trace st) ++ attempts (take k (find (store st))))
  /\ NoDup (find (store st)).*1
  /\ (forall u,
        u ∈ find (store st) ->
        store st !! u.1 = Some u.2 /\ unsent (u.2 !! "welcome_email_sent")).
Proof.
  split; [|split].
  - unfold process_users, count_documents, fetch. monad_unfold.
    cbn [tick trace store].
    destruct (io w (tick st)); cbv beta iota; cbn [tick trace store snd].
    2, 3: exists 0; rewrite <- ?app_assoc, send_calls_app; reflexivity.
    destruct (length (find (store st)) =? 0)%nat; cbv beta iota;
      cbn [tick trace store snd].
    { exists 0. rewrite <- ?app_assoc, send_calls_app. reflexivity. }
    destruct (io w (S (tick st))); cbv beta iota; cbn [tick trace store snd].
    2, 3: exists 0; rewrite <- ?app_assoc, send_calls_app; reflexivity.
    match goal with
    | |- context [for_each ?us ?b ?s] =>
        destruct (for_each_calls w us s) as [k Hk]
    end.
    exists k. rewrite Hk. cbn [trace].
    rewrite <- ?app_assoc, send_calls_app. f_equal.
    apply app_nil_r.
  - apply find_NoDup.
  - intros u [E Hq]%find_spec. split; [done|].
    unfold query in Hq. unfold unsent.
    destruct (u.2 !! "welcome_email_sent") as [[|[]| |]|]; auto; discriminate.
Qed.

(** ** A cycle in which nothing fails *)






Section Clean.
Context (w : world) (text : string).
Hypothesis template_there : forall t, template_file w t = Content text.
Hypothesis template_renders :
  forall v y, exists html, str_format w text v y = Rendered html.
Hypothesis sender_ok : sender_error w = None.
Hypothesis password_ok : is_ascii (default "" (GMAIL_APP_PASSWORD w)) = true.
Hypothesis all_done : forall t, io w t = Done.
Hypothesis all_quit : forall t, session_exit w t = None.




End Clean.




(** ** A send that is not recorded *)



(** ** Keyboard interrupts *)

(** No [except Exception] clause catches a [KeyboardInterrupt]: a round
    ends by one exactly when one left a call of the round. *)
Lemma process_user_interrupts w u st :
  exists evs,
    trace (process_user w u st).2 = trace st ++ evs
    /\ count_events interrupted evs = interrupts (process_user w u st).1.
Proof.
  unfold process_user.
  destruct (truthy (dict_get u.2 "email")); cbn [negb];
    script_unfold; explore; rewrite <- ?app_assoc;
    eexists; split; reflexivity.
Qed.

Lemma for_each_interrupts w users st :
  exists evs,
    trace (for_each users (process_user w) st).2 = trace st ++ evs
    /\ count_events interrupted evs
       = interrupts (for_each users (process_user w) st).1.
Proof.
  revert st. induction users as [|u users IH]; intros st.
  - exists []. by rewrite app_nil_r.
  - destruct (process_user_interrupts w u st) as (evs1 & E1 & C1).
    cbn [for_each]. unfold bind.
    destruct (process_user w u st) as [[[]|e|] st1]; cbn [fst snd] in *;
      [|by exists evs1..].
    destruct (IH st1) as (evs2 & E2 & C2).
    exists (evs1 ++ evs2). rewrite E2, E1, app_assoc, count_events_app, C1, C2.
    by split.
Qed.

Lemma poll_cycle_interrupts w secs st :
  exists evs,
    trace (poll_cycle w secs st).2 = trace st ++ evs
    /\ count_events interrupted evs = interrupts (poll_cycle w secs st).1.
Proof.
  unfold poll_cycle, process_users, count_documents, fetch, sleep. monad_unfold.
  cbn [tick trace store].
  destruct (io w (tick st)); cbv beta iota; cbn [tick trace store fst snd].
  2, 3: rewrite <- ?app_assoc; eexists; split; reflexivity.
  destruct (length (find (store st)) =? 0)%nat; cbv beta iota;
    cbn [tick trace store fst snd].
  { destruct (sleep_refusal w secs); cbv beta iota; cbn [tick trace store fst snd].
    - rewrite <- ?app_assoc; eexists; split; reflexivity.
    - destruct (io w (S (tick st))); cbv beta iota; cbn [tick trace store fst snd];
        rewrite <- ?app_assoc; eexists; split; reflexivity. }
  destruct (io w (S (tick st))); cbv beta iota; cbn [tick trace store fst snd].
  2, 3: rewrite <- ?app_assoc; eexists; split; reflexivity.
  match goal with
  | |- context [for_each ?us ?b ?s] =>
      destruct (for_each_interrupts w us s) as (evs & E & C);
      destruct (for_each us b s) as [[[]|e|] st1]
  end; cbn [tick trace store fst snd] in *.
  2, 3: rewrite E, <- ?app_assoc; eexists; (split; [reflexivity|]);
        rewrite !count_events_app, C; reflexivity.
  destruct (sleep_refusal w secs); cbv beta iota; cbn [tick trace store fst snd].
  - rewrite E, <- ?app_assoc; eexists; (split; [reflexivity|]);
      rewrite !count_events_app, C; reflexivity.
  - destruct (io w (tick st1)); cbv beta iota; cbn [tick trace store fst snd];
      rewrite E, <- ?app_assoc; eexists; (split; [reflexivity|]);
      rewrite !count_events_app, C; reflexivity.
Qed.

Lemma loop_interrupts w secs fuel st :
  exists evs,
    trace (while_true fuel (poll_cycle w secs) st).2 = trace st ++ evs
    /\ count_events interrupted evs
       = interrupts (while_true fuel (poll_cycle w secs) st).1.
Proof.
  revert st. induction fuel as [|fuel IH]; intros st.
  - exists []. by rewrite app_nil_r.
  - destruct (poll_cycle_interrupts w secs st) as (evs1 & E1 & C1).
    cbn [while_true]. unfold bind.
    destruct (poll_cycle w secs st) as [[[]|e|] st1]; cbn [fst snd] in *;
      [|by exists evs1..].
    destruct (IH st1) as (evs2 & E2 & C2).
    exists (evs1 ++ evs2). rewrite E2, E1, app_assoc, count_events_app, C1, C2.
    by split.
Qed.

(** X8.  In service mode, once the store is connected, a
    [KeyboardInterrupt] that leaves a blocking call of the loop (a query,
    an SMTP session, an update or the sleep) ends the service
    gracefully: no [except Exception] clause on its way catches it, the
    handler of [main] writes the line of the graceful exit as the last
    line, and the process ends with status 0; so at most one call of a
    run is ever left by a [KeyboardInterrupt].  An interrupt during an
    SMTP session that [SMTP.__exit__] replaces by an error of its own is
    not among them: the send is reported as failed and the loop goes
    on. *)
Theorem interrupt_ends_service_gracefully w a fuel col :
  environment_valid w = true ->
  test a = false ->
  io w 0 = Done ->
  count_events interrupted
    (trace (program w (Parsed a) fuel (initial col)).2) <= 1
  /\ (count_events interrupted
        (trace (program w (Parsed a) fuel (initial col)).2) = 1 ->
      exit_status (program w (Parsed a) fuel (initial col)).1 = Some 0%Z
      /\ ends_in_graceful_interrupt
           (trace (program w (Parsed a) fuel (initial col)).2))
  /\ (forall u st text html cause,
        truthy (dict_get u.2 "email") = true ->
        template_file w (tick st) = Content text ->
        str_format w text (dict_get_or u.2 "firstName" (VStr "User"))
          (now_year w (tick st)) = Rendered html ->
        sender_error w = None ->
        io w (S (tick st)) = Interrupted ->
        session_exit w (S (tick st)) = Some cause ->
        (process_user w u st).1 = Ret tt
        /\ count_events interrupted (trace (process_user w u st).2)
           = count_events interrupted (trace st)
        /\ EvLog ERROR ("Failed to send email to "
                        +:+ py_str (dict_get u.2 "email") +:+ ": " +:+ cause)
           ∈ trace (process_user w u st).2).
Proof.
  intros Hv Ht Hio. apply and_assoc. split.
  - rewrite program_valid by done.
    unfold main, parse_args, connect. monad_unfold. rewrite Ht.
    cbn [initial tick trace store]. rewrite Hio.
    cbv beta iota; cbn [tick trace store].
    match goal with
    | |- context [while_true fuel ?b ?s] =>
        destruct (loop_interrupts w (interval a) fuel s) as (evs & E & C);
        pose proof (loop_ends w (interval a) fuel s) as Hend;
        destruct (while_true fuel b s) as [[[]|[code| |msg]|] st2]
    end; cbn [fst snd trace main_handlers exit_status interrupts] in *;
      monad_unfold; cbn [fst snd trace exit_status];
      rewrite E, ?count_events_app, C; cbn [count_events List.filter interrupted
                                              length Nat.add app].
    + done.
    + split; [lia|]. intros; lia.
    + split; [lia|]. intros _. split; [done|].
      unfold ends_in_graceful_interrupt. by rewrite !app_comm_cons, last_snoc.
    + split; [lia|]. intros; lia.
    + split; [lia|]. intros; lia.
  - intros u st text html cause He Hfile Hfmt Hsender Hint Hexit.
    unfold process_user. rewrite He. cbn [negb].
    script_unfold. cbn [tick trace store]. rewrite Hfile.
    cbv beta iota; cbn [tick trace store]. rewrite Hfmt.
    cbv beta iota; cbn [tick trace store]. rewrite Hsender.
    cbv beta iota; cbn [tick trace store].
    unfold session_outcome. rewrite Hexit.
    cbv beta iota; cbn [tick trace store fst snd].
    split; [done|]. split.
    + rewrite !count_events_app. cbn. lia.
    + rewrite <- !app_assoc. apply elem_of_app. right. cbn.
      by repeat constructor.
Qed.

Lemma interrupt_ends_service_gracefully_witness :
  environment_valid world_interrupted_at_4 = true
  /\ test {| test := false; test_email := None; interval := 60 |} = false
  /\ io world_interrupted_at_4 0 = Done
  /\ count_events interrupted
       (trace (program world_interrupted_at_4
                 (Parsed {| test := false; test_email := None; interval := 60 |})
                 2 (initial three_users)).2) = 1
  /\ exit_status
       (program world_interrupted_at_4
          (Parsed {| test := false; test_email := None; interval := 60 |}) 2
          (initial three_users)).1 = Some 0%Z.
Proof.
  assert (H1 : environment_valid world_interrupted_at_4 = true) by reflexivity.
  assert (H2 : test {| test := false; test_email := None; interval := 60 |} = false)
    by reflexivity.
  assert (H3 : io world_interrupted_at_4 0 = Done) by reflexivity.
  assert (H4 : count_events interrupted
                 (trace (program world_interrupted_at_4
                           (Parsed {| test := false; test_email := None;
                                      interval := 60 |})
                           2 (initial three_users)).2) = 1)
    by (vm_compute; reflexivity).
  split; [exact H1|]. split; [exact H2|]. split; [exact H3|]. split; [exact H4|].
  exact (proj1 (proj1 (proj2 (interrupt_ends_service_gracefully
                                world_interrupted_at_4
                                {| test := false; test_email := None;
                                   interval := 60 |} 2
                                three_users H1 H2 H3)) H4)).
Defined.

(** X9.  In test mode nothing handles an interrupt.  When a
    [KeyboardInterrupt] leaves the SMTP session of the test send, it
    leaves [send_welcome_email] and [main] uncaught, nothing is logged
    after the session, and the process does not end with status 0.  When
    the interrupt comes during the session and [SMTP.__exit__] replaces
    it by an error of its own, the send is reported as failed instead,
    and the process ends with status 0. *)
Theorem interrupt_in_test_mode_is_not_handled w address secs fuel col text html :
  environment_valid w = true ->
  address <> "" ->
  template_file w 0 = Content text ->
  str_format w text (VStr "Test User") (now_year w 0) = Rendered html ->
  sender_error w = None ->
  (session_outcome w (welcome_message w (VStr address) html) 1 = Interrupted ->
   (program w (Parsed {| test := true; test_email := Some address;
                         interval := secs |}) fuel (initial col)).1
   = Raise KeyboardInterrupt
   /\ exit_status
        (program w (Parsed {| test := true; test_email := Some address;
                              interval := secs |}) fuel (initial col)).1
      <> Some 0%Z
   /\ last (trace (program w (Parsed {| test := true; test_email := Some address;
                                        interval := secs |}) fuel (initial col)).2)
      = Some (EvSmtp (welcome_message w (VStr address) html) Interrupted)
   /\ ~ ends_in_graceful_interrupt
          (trace (program w (Parsed {| test := true; test_email := Some address;
                                       interval := secs |}) fuel (initial col)).2))
  /\ (forall cause,
        io w 1 = Interrupted ->
        session_exit w 1 = Some cause ->
        exit_status
          (program w (Parsed {| test := true; test_email := Some address;
                                interval := secs |}) fuel (initial col)).1
        = Some 0%Z
        /\ last (trace (program w (Parsed {| test := true;
                                             test_email := Some address;
                                             interval := secs |}) fuel
                          (initial col)).2)
           = Some (test_failed_line address)
        /\ EvLog ERROR ("Failed to send email to " +:+ address +:+ ": " +:+ cause)
           ∈ trace (program w (Parsed {| test := true; test_email := Some address;
                                        interval := secs |}) fuel (initial col)).2).
Proof.
  intros Hv Haddr Hfile Hfmt Hsender. rewrite program_valid, main_test by done.
  script_unfold. cbn [initial tick trace store]. rewrite Hfile.
  cbv beta iota; cbn [tick trace store]. rewrite Hfmt.
  cbv beta iota; cbn [tick trace store]. rewrite Hsender.
  cbv beta iota; cbn [tick trace store]. split.
  - intros Hio. rewrite Hio.
    cbv beta iota; cbn [tick trace store fst snd exit_status].
    split; [done|]. split; [done|]. split.
    + apply last_snoc.
    + unfold ends_in_graceful_interrupt. rewrite last_snoc. discriminate.
  - intros cause Hio Hexit. unfold session_outcome. rewrite Hexit.
    cbv beta iota; cbn [tick trace store fst snd exit_status py_str].
    split; [done|]. split; [apply last_snoc|].
    rewrite <- !app_assoc. cbn. by repeat constructor.
Qed.

Lemma interrupt_in_test_mode_is_not_handled_witness :
  environment_valid world_interrupted_at_1 = true
  /\ "qa@example.com" <> ""
  /\ template_file world_interrupted_at_1 0
     = Content (template_source sample_template)
  /\ str_format world_interrupted_at_1 (template_source sample_template)
       (VStr "Test User") (now_year world_interrupted_at_1 0)
     = Rendered "<p>Welcome, Test User!</p><style>p { margin: 0 }</style><p>(c) 2024 WildVision</p>"
  /\ sender_error world_interrupted_at_1 = None
  /\ session_outcome world_interrupted_at_1
       (welcome_message world_interrupted_at_1 (VStr "qa@example.com")
          "<p>Welcome, Test User!</p><style>p { margin: 0 }</style><p>(c) 2024 WildVision</p>")
       1 = Interrupted
  /\ (program world_interrupted_at_1
        (Parsed {| test := true; test_email := Some "qa@example.com";
                   interval := 60 |}) 1 (initial three_users)).1
     = Raise KeyboardInterrupt
  /\ io world_with_replaced_interrupt 1 = Interrupted
  /\ session_exit world_with_replaced_interrupt 1
     = Some "(421, b'Service not available')"
  /\ exit_status
       (program world_with_replaced_interrupt
          (Parsed {| test := true; test_email := Some "qa@example.com";
                     interval := 60 |}) 1 (initial three_users)).1 = Some 0%Z.
Proof.
  assert (H1 : environment_valid world_interrupted_at_1 = true) by reflexivity.
  assert (H2 : "qa@example.com" <> "") by discriminate.
  assert (H3 : template_file world_interrupted_at_1 0
               = Content (template_source sample_template)) by reflexivity.
  assert (H4 : str_format world_interrupted_at_1 (template_source sample_template)
                 (VStr "Test User") (now_year world_interrupted_at_1 0)
               = Rendered "<p>Welcome, Test User!</p><style>p { margin: 0 }</style><p>(c) 2024 WildVision</p>")
    by reflexivity.
  assert (H5 : sender_error world_interrupted_at_1 = None) by reflexivity.
  assert (H6 : session_outcome world_interrupted_at_1
                 (welcome_message world_interrupted_at_1 (VStr "qa@example.com")
                    "<p>Welcome, Test User!</p><style>p { margin: 0 }</style><p>(c) 2024 WildVision</p>")
                 1 = Interrupted) by reflexivity.
  assert (H7 : io world_with_replaced_interrupt 1 = Interrupted) by reflexivity.
  assert (H8 : session_exit world_with_replaced_interrupt 1
               = Some "(421, b'Service not available')") by reflexivity.
  split; [exact H1|]. split; [exact H2|]. split; [exact H3|]. split; [exact H4|].
  split; [exact H5|]. split; [exact H6|]. split.
  - exact (proj1 (proj1 (interrupt_in_test_mode_is_not_handled
                           world_interrupted_at_1 "qa@example.com" 60 1 three_users
                           _ _ H1 H2 H3 H4 H5) H6)).
  - split; [exact H7|]. split; [exact H8|].
    exact (proj1 (proj2 (interrupt_in_test_mode_is_not_handled
                           world_with_replaced_interrupt "qa@example.com" 60 1
                           three_users _ _ eq_refl H2 eq_refl eq_refl eq_refl)
                    _ H7 H8)).
Defined.

(** ** A negative interval *)

(** X10.  With a negative [--interval] the service runs one poll cycle
    and stops: [time.sleep] refuses the value before sleeping (with the
    [ValueError] for a negative length, or with the [OverflowError] of
    the conversion when there is one), the error reaches the handler of
    [main], and the process ends with status 1, the collection being as
    the cycle left it. *)
Theorem negative_interval_stops_after_one_cycle w secs fuel st st1 :
  (secs < 0)%Z ->
  process_users w st = (Ret tt, st1) ->
  try_except (while_true (S fuel) (poll_cycle w secs)) main_handlers st
  = (Raise (SystemExit 1),
     {| store := store st1;
        trace := trace st1 ++
          [EvLog INFO ("Sleeping for " +:+ decimal secs
                       +:+ " seconds before next check.");
           unexpected_line
             (default "sleep length must be non-negative" (sleep_overflow w secs))];
        tick := tick st1 |})
  /\ exit_status
       (try_except (while_true (S fuel) (poll_cycle w secs)) main_handlers st).1
     = Some 1%Z.
Proof.
  intros Hneg Hcycle. apply Z.ltb_lt in Hneg.
  assert (Hr : sleep_refusal w secs
               = Some (default "sleep length must be non-negative"
                         (sleep_overflow w secs))).
  { unfold sleep_refusal. destruct (sleep_overflow w secs); [done|].
    by rewrite Hneg. }
  assert (try_except (while_true (S fuel) (poll_cycle w secs)) main_handlers st
          = (Raise (SystemExit 1),
             {| store := store st1;
                trace := trace st1 ++
                  [EvLog INFO ("Sleeping for " +:+ decimal secs
                               +:+ " seconds before next check.");
                   unexpected_line
                     (default "sleep length must be non-negative"
                        (sleep_overflow w secs))];
                tick := tick st1 |})) as ->; [|done].
  cbn [while_true]. unfold poll_cycle, sleep, try_except, bind at 1 2 3.
  rewrite Hcycle, Hr. monad_unfold. cbn [main_handlers trace store tick].
  monad_unfold. cbn [trace store tick]. by rewrite <- app_assoc.
Qed.

Lemma negative_interval_stops_after_one_cycle_witness :
  (-5 < 0)%Z
  /\ process_users calm_world (initial three_users)
     = (Ret tt, (process_users calm_world (initial three_users)).2)
  /\ exit_status
       (try_except (while_true (S 3) (poll_cycle calm_world (-5))) main_handlers
          (initial three_users)).1 = Some 1%Z.
Proof.
  assert (H1 : (-5 < 0)%Z) by reflexivity.
  assert (H2 : process_users calm_world (initial three_users)
               = (Ret tt, (process_users calm_world (initial three_users)).2))
    by (vm_compute; reflexivity).
  split; [exact H1|]. split; [exact H2|].
  exact (proj2 (negative_interval_stops_after_one_cycle calm_world (-5) 3
                  (initial three_users) _ H1 H2)).
Defined.

(** ** A template that cannot be used *)

Lemma smtp_sessions_app tr1 tr2 :
  smtp_sessions (tr1 ++ tr2) = smtp_sessions tr1 ++ smtp_sessions tr2.
Proof. apply omap_app. Qed.

Lemma for_each_unusable_template w users st :
  (forall t text, template_file w t <> Content text) ->
  attempts users <> [] ->
  exists e st',
    for_each users (process_user w) st = (Raise e, st')
    /\ (e = SystemExit 1 \/ exists msg, e = PyError msg)
    /\ store st' = store st
    /\ smtp_sessions (trace st') = smtp_sessions (trace st)
    /\ send_calls (trace st') = send_calls (trace st) ++ take 1 (attempts users).
Proof.
  intros Hfile. revert st. induction users as [|u users IH]; intros st Hne; [done|].
  cbn [for_each]. unfold bind. unfold process_user at 1.
  unfold attempts in Hne |- *. cbn [omap list_omap] in Hne |- *.
  destruct (truthy (dict_get u.2 "email")) eqn:He; cbn [negb].
  - unfold send_welcome_email, load_email_template, smtp_session, current_year,
      update_one, render.
    monad_unfold. cbn [tick trace store].
    destruct (template_file w (tick st)) as [text| |msg] eqn:Hf;
      [by apply Hfile in Hf|..];
      cbv beta iota; cbn [tick trace store];
      do 2 eexists; (split; [reflexivity|]); cbn [store trace];
      (split; [eauto|]); (split; [done|]);
      rewrite <- ?app_assoc, smtp_sessions_app, send_calls_app;
      (split; [apply app_nil_r | reflexivity]).
  - monad_unfold.
    match goal with
    | |- context [for_each users ?b ?s] =>
        destruct (IH s Hne) as (e & st' & -> & He' & Hs & Hm & Hc)
    end.
    exists e, st'. split; [done|]. split; [done|]. split; [done|].
    cbn [trace] in Hm, Hc. rewrite smtp_sessions_app in Hm.
    rewrite send_calls_app in Hc. split; [by rewrite Hm, app_nil_r|].
    by rewrite Hc, app_nil_r.
Qed.

(** X11.  When the template file cannot be read (it is missing, or
    unreadable) and the query returns some user with an address, the poll
    cycle stops at the first such user: [send_welcome_email] is called
    once, no SMTP session is opened, the collection is left as it was,
    and the service ends with status 1. *)
Theorem unusable_template_stops_the_service w secs fuel st :
  (forall t text, template_file w t <> Content text) ->
  io w (tick st) = Done ->
  io w (S (tick st)) = Done ->
  attempts (find (store st)) <> [] ->
  (exists e,
      (process_users w st).1 = Raise e
      /\ (e = SystemExit 1 \/ exists msg, e = PyError msg))
  /\ store (process_users w st).2 = store st
  /\ smtp_sessions (trace (process_users w st).2) = smtp_sessions (trace st)
  /\ send_calls (trace (process_users w st).2)
     = send_calls (trace st) ++ take 1 (attempts (find (store st)))
  /\ exit_status
       (try_except (while_true (S fuel) (poll_cycle w secs)) main_handlers st).1
     = Some 1%Z.
Proof.
  intros Hfile Hcount Hfetch Hne.
  assert (Hlen : (length (find (store st)) =? 0)%nat = false).
  { apply Nat.eqb_neq. intros Hl. apply nil_length_inv in Hl.
    by rewrite Hl in Hne. }
  assert (exists e st',
             process_users w st = (Raise e, st')
             /\ (e = SystemExit 1 \/ exists msg, e = PyError msg)
             /\ store st' = store st
             /\ smtp_sessions (trace st') = smtp_sessions (trace st)
             /\ send_calls (trace st')
                = send_calls (trace st) ++ take 1 (attempts (find (store st))))
    as (e & st' & E & He & Hs & Hm & Hc).
  { unfold process_users, count_documents, fetch. monad_unfold.
    cbn [tick trace store]. rewrite Hcount.
    cbv beta iota; cbn [tick trace store]. rewrite Hlen.
    cbv beta iota; cbn [tick trace store]. rewrite Hfetch.
    cbv beta iota; cbn [tick trace store].
    match goal with
    | |- context [for_each ?us ?b ?s] =>
        destruct (for_each_unusable_template w us s Hfile Hne)
          as (e & st' & -> & He & Hs & Hm & Hc)
    end.
    exists e, st'. split; [done|]. split; [done|]. split; [done|].
    cbn [trace] in Hm, Hc.
    rewrite <- ?app_assoc, smtp_sessions_app in Hm.
    rewrite <- ?app_assoc, send_calls_app in Hc.
    split; [by rewrite Hm, app_nil_r|]. by rewrite Hc, app_nil_r. }
  rewrite E. cbn [fst snd]. split; [eauto|]. split; [done|]. split; [done|].
  split; [done|].
  cbn [while_true]. unfold poll_cycle, try_except, bind. rewrite E.
  destruct He as [-> | [msg ->]]; reflexivity.
Qed.

Lemma unusable_template_stops_the_service_witness :
  (forall t text, template_file world_without_template t <> Content text)
  /\ io world_without_template (tick (initial three_users)) = Done
  /\ io world_without_template (S (tick (initial three_users))) = Done
  /\ attempts (find (store (initial three_users))) <> []
  /\ exit_status
       (try_except (while_true (S 2) (poll_cycle world_without_template 60))
          main_handlers (initial three_users)).1 = Some 1%Z.
Proof.
  assert (H1 : forall t text, template_file world_without_template t <> Content text)
    by (intros t text; discriminate).
  assert (H2 : io world_without_template (tick (initial three_users)) = Done)
    by reflexivity.
  assert (H3 : io world_without_template (S (tick (initial three_users))) = Done)
    by reflexivity.
  assert (H4 : attempts (find (store (initial three_users))) <> [])
    by (vm_compute; discriminate).
  repeat (split; [assumption|]).
  exact (proj2 (proj2 (proj2 (proj2
           (unusable_template_stops_the_service world_without_template 60 2
              (initial three_users) H1 H2 H3 H4))))).
Defined.

(** ** Fields the program does not own *)

(** X12.  Over a whole run, in either mode and from any state, the
    program changes no field of a record other than
    [welcome_email_sent]: address, first name and every other field
    keep their value (or their absence). *)
Theorem other_fields_are_never_changed w c fuel st id d k :
  store st !! id = Some d ->
  k <> "welcome_email_sent" ->
  exists d',
    store (program w c fuel st).2 !! id = Some d'
    /\ d' !! k = d !! k.
Proof.
  intros Hid Hk. pose proof (program_marks_only w c fuel st id) as H.
  rewrite Hid in H. destruct H as [E | [_ E]]; rewrite E; eexists;
    (split; [reflexivity|]); [done|].
  by rewrite lookup_insert_ne.
Qed.

Lemma other_fields_are_never_changed_witness :
  store (initial three_users) !! 1%N = Some ann
  /\ "email" <> "welcome_email_sent"
  /\ exists d',
       store (program calm_world service_mode 2 (initial three_users)).2 !! 1%N
       = Some d'
       /\ d' !! "email" = ann !! "email".
Proof.
  assert (H1 : store (initial three_users) !! 1%N = Some ann) by reflexivity.
  assert (H2 : "email" <> "welcome_email_sent") by discriminate.
  split; [exact H1|]. split; [exact H2|].
  exact (other_fields_are_never_changed calm_world service_mode 2
           (initial three_users) 1%N ann "email" H1 H2).
Defined.

(** ** More on [str.format] *)

(** The scan of a plain field name, up to its closing brace. *)
Lemma format_field_scan kw acc name rest :
  plain_name name = true ->
  format_from kw (Some acc) (name +:+ "}" +:+ rest)
  = match field_value kw (acc +:+ name) with
    | Some (inl text) => put_text text (format_from kw None rest)
    | Some (inr msg) => Some (RenderError msg)
    | None => None
    end.
Proof.
  revert acc. induction name as [|c name IH]; intros acc Hp.
  - rewrite append_empty, append_empty_r. reflexivity.
  - cbn [plain_name] in Hp.
    apply andb_prop in Hp as [Hp Hn]. apply andb_prop in Hp as [Hp Hb].
    apply andb_prop in Hp as [Ho Hc].
    apply negb_true_iff in Ho, Hc, Hb.
    rewrite append_cons. cbn [format_from]. rewrite Hc, Ho, Hb.
    rewrite IH by done. by rewrite append_assoc.
Qed.

Lemma format_field kw name rest :
  plain_name name = true ->
  format_from kw None ("{" +:+ name +:+ "}" +:+ rest)
  = match field_value kw name with
    | Some (inl text) => put_text text (format_from kw None rest)
    | Some (inr msg) => Some (RenderError msg)
    | None => None
    end.
Proof.
  intros Hp. pose proof (format_field_scan kw "" name rest Hp) as Hs.
  rewrite append_empty in Hs. rewrite <- Hs. clear Hs.
  destruct name as [|c name]; [reflexivity|].
  cbn [plain_name] in Hp.
  apply andb_prop in Hp as [Hp _]. apply andb_prop in Hp as [Hp _].
  apply andb_prop in Hp as [Ho _]. apply negb_true_iff in Ho.
  rewrite (append_cons c name).
  change (format_from kw None (String "{" (String c (name +:+ "}" +:+ rest)))
          = format_from kw (Some "") (String c (name +:+ "}" +:+ rest))).
  cbn [format_from Ascii.eqb Bool.eqb]. by rewrite Ho.
Qed.

(** X13.  For any first name and year, a template of the specified shape
    renders to its literal text with [str(first_name)] and the decimal
    year at the fields.  The values are copied as they are and not
    scanned again, so braces in a first name do no harm, and text written
    with doubled braces comes out with single ones. *)
Theorem values_are_copied_verbatim w t v y :
  forallb is_placeholder (map fst (fields t)) = true ->
  str_format w (template_source t) v y
  = Rendered (substituted (py_str v) (decimal y) t)
  /\ (forall s, str_format w (escape s) v y = Rendered s).
Proof.
  intros H. split; [by apply format_template|].
  intros s. unfold str_format.
  rewrite <- (append_empty_r (escape s)), format_escape. cbn.
  by rewrite append_empty_r.
Qed.

Lemma values_are_copied_verbatim_witness :
  forallb is_placeholder (map fst (fields sample_template)) = true
  /\ str_format calm_world (template_source sample_template) (VStr "{year}") 1999
     = Rendered "<p>Welcome, {year}!</p><style>p { margin: 0 }</style><p>(c) 1999 WildVision</p>".
Proof.
  assert (H1 : forallb is_placeholder (map fst (fields sample_template)) = true)
    by reflexivity.
  split; [exact H1|].
  exact (proj1 (values_are_copied_verbatim calm_world sample_template
                  (VStr "{year}") 1999 H1)).
Defined.

(** X14.  A replacement field that the call does not fill makes the
    rendering fail, whatever follows it in the template: a name other
    than [first_name] and [year] is a [KeyError] that shows the name, an
    empty or numeric name an [IndexError], since the call passes keyword
    arguments only.  The name is one of ordinary characters, which the
    messages show as written. *)
Theorem unfilled_field_fails_rendering w literal name rest v y :
  plain_name name = true ->
  ordinary_name name = true ->
  is_placeholder name = false ->
  str_format w (escape literal +:+ "{" +:+ name +:+ "}" +:+ rest) v y
  = RenderError
      (if String.eqb name "" then
         "Replacement index 0 out of range for positional args tuple"
       else if all_digits name then
         "Replacement index " +:+ decimal (digits_value 0 name)
         +:+ " out of range for positional args tuple"
       else "'" +:+ name +:+ "'").
Proof.
  intros Hp Ho Hn. unfold str_format. rewrite format_escape, format_field by done.
  unfold field_value, template_kwargs. rewrite Ho. cbn [negb].
  unfold is_placeholder in Hn. apply orb_false_iff in Hn as [-> ->].
  destruct (String.eqb name ""); [done|]. by destruct (all_digits name).
Qed.

Lemma unfilled_field_fails_rendering_witness :
  plain_name "last_name" = true
  /\ ordinary_name "last_name" = true
  /\ is_placeholder "last_name" = false
  /\ str_format calm_world
       (escape "<p>Dear " +:+ "{" +:+ "last_name" +:+ "}" +:+ ", {first_name}</p>")
       (VStr "Ada") 2024
     = RenderError "'last_name'".
Proof.
  assert (H1 : plain_name "last_name" = true) by reflexivity.
  assert (H2 : ordinary_name "last_name" = true) by reflexivity.
  assert (H3 : is_placeholder "last_name" = false) by reflexivity.
  split; [exact H1|]. split; [exact H2|]. split; [exact H3|].
  exact (unfilled_field_fails_rendering calm_world "<p>Dear " "last_name"
           ", {first_name}</p>" (VStr "Ada") 2024 H1 H2 H3).
Defined.

(** X15.  A closing brace that is neither doubled nor the end of a field
    makes the rendering fail with a [ValueError], and so does an opening
    brace at the very end of the template. *)
Theorem stray_brace_fails_rendering w literal rest v y :
  String.prefix "}" rest = false ->
  str_format w (escape literal +:+ "}" +:+ rest) v y
  = RenderError "Single '}' encountered in format string"
  /\ str_format w (escape literal +:+ "{") v y
     = RenderError "Single '{' encountered in format string".
Proof.
  intros Hr. unfold str_format. rewrite !format_escape. split.
  - destruct rest as [|c rest]; [reflexivity|].
    rewrite prefix_cons in Hr. rewrite !append_cons, append_empty.
    cbn [format_from Ascii.eqb Bool.eqb].
    destruct (Ascii.eqb_spec c "}") as [->|Hc]; [|done].
    destruct (ascii_dec "}" "}"); [|done]. by destruct rest.
  - reflexivity.
Qed.

Lemma stray_brace_fails_rendering_witness :
  String.prefix "}" " p { margin: 0 }" = false
  /\ str_format calm_world (escape "<style>" +:+ "}" +:+ " p { margin: 0 }")
       (VStr "Ada") 2024
     = RenderError "Single '}' encountered in format string".
Proof.
  assert (H1 : String.prefix "}" " p { margin: 0 }" = false) by reflexivity.
  split; [exact H1|].
  exact (proj1 (stray_brace_fails_rendering calm_world "<style>" " p { margin: 0 }"
                  (VStr "Ada") 2024 H1)).
Defined.

(** ** The message for a candidate *)



(** ** A service with nothing to do *)

Lemma idle_sends_nothing tr :
  Forall (fun e => is_idle e = true) tr ->
  send_calls tr = [] /\ smtp_sessions tr = []
  /\ count_events is_update tr = 0 /\ count_events is_template_read tr = 0.
Proof.
  induction 1 as [|e tr He _ (IH1 & IH2 & IH3 & IH4)]; [done|].
  unfold send_calls, smtp_sessions, count_events in *.
  destruct e; try discriminate; cbn; auto.
Qed.

Lemma poll_cycle_idle w secs st :
  find (store st) = [] ->
  store (poll_cycle w secs st).2 = store st
  /\ grows (Forall (fun e => is_idle e = true)) (trace st)
       (trace (poll_cycle w secs st).2).
Proof.
  intros Hnone.
  unfold poll_cycle, process_users, count_documents, fetch, sleep, grows.
  monad_unfold. cbn [tick trace store].
  destruct (io w (tick st)); cbv beta iota; cbn [tick trace store fst snd];
    [rewrite Hnone; cbn [length Nat.eqb]; cbv beta iota;
     cbn [tick trace store fst snd];
     destruct (sleep_refusal w secs); cbv beta iota; cbn [tick trace store fst snd];
     [|destruct (io w (S (tick st))); cbv beta iota;
       cbn [tick trace store fst snd]]|..];
    (split; [done|]); rewrite <- ?app_assoc; eexists;
    (split; [reflexivity|]); by repeat constructor.
Qed.

Lemma loop_idle w secs fuel st :
  find (store st) = [] ->
  store (while_true fuel (poll_cycle w secs) st).2 = store st
  /\ grows (Forall (fun e => is_idle e = true)) (trace st)
       (trace (while_true fuel (poll_cycle w secs) st).2).
Proof.
  revert st. induction fuel as [|fuel IH]; intros st Hnone.
  - split; [done|]. exists []. by rewrite app_nil_r.
  - destruct (poll_cycle_idle w secs st Hnone) as (S1 & evs1 & E1 & F1).
    cbn [while_true]. unfold bind.
    destruct (poll_cycle w secs st) as [[[]|e|] st1]; cbn [fst snd] in *;
      [|split; [done|by exists evs1]..].
    rewrite <- S1 in Hnone. destruct (IH st1 Hnone) as (S2 & evs2 & E2 & F2).
    split; [congruence|]. exists (evs1 ++ evs2).
    rewrite E2, E1, app_assoc. split; [done|]. by apply Forall_app.
Qed.

(** X17.  When no record of the collection is pending, a service run
    only connects, counts, logs and sleeps: it never opens a cursor,
    reads the template, calls [send_welcome_email], opens an SMTP session
    or updates a record, and it leaves the collection as it was. *)
Theorem idle_service_touches_nothing w a fuel col :
  test a = false ->
  find col = [] ->
  store (program w (Parsed a) fuel (initial col)).2 = col
  /\ Forall (fun e => is_idle e = true)
       (trace (program w (Parsed a) fuel (initial col)).2)
  /\ send_calls (trace (program w (Parsed a) fuel (initial col)).2) = []
  /\ smtp_sessions (trace (program w (Parsed a) fuel (initial col)).2) = []
  /\ count_events is_update (trace (program w (Parsed a) fuel (initial col)).2) = 0
  /\ count_events is_template_read
       (trace (program w (Parsed a) fuel (initial col)).2) = 0.
Proof.
  intros Ht Hnone.
  assert (store (program w (Parsed a) fuel (initial col)).2 = col
          /\ Forall (fun e => is_idle e = true)
               (trace (program w (Parsed a) fuel (initial col)).2)) as [Hs Hf].
  { destruct (environment_valid w) eqn:Hv.
    2: { destruct (program_invalid w (Parsed a) fuel (initial col) Hv)
           as (text & -> & _). split; [done|]. by repeat constructor. }
    rewrite program_valid by done. unfold main, parse_args, connect.
    monad_unfold. rewrite Ht. cbn [initial tick trace store].
    destruct (io w 0); cbv beta iota; cbn [tick trace store fst snd];
      [|split; [done|by repeat constructor]..].
    match goal with
    | |- context [while_true fuel ?b ?s] =>
        destruct (loop_idle w (interval a) fuel s Hnone) as (S1 & evs & E & F);
        destruct (while_true fuel b s) as [[[]|[code| |msg]|] st2]
    end; cbn [fst snd trace store main_handlers] in *; monad_unfold;
      cbn [fst snd trace store]; rewrite E;
      (split; [done|]); rewrite ?Forall_app; repeat split;
      first [done | by repeat constructor]. }
  split; [done|]. split; [done|]. by apply idle_sends_nothing.
Qed.

Lemma idle_service_touches_nothing_witness :
  test {| test := false; test_email := None; interval := 60 |} = false
  /\ find everyone_marked = []
  /\ store (program calm_world
              (Parsed {| test := false; test_email := None; interval := 60 |}) 3
              (initial everyone_marked)).2 = everyone_marked.
Proof.
  assert (H1 : test {| test := false; test_email := None; interval := 60 |} = false)
    by reflexivity.
  assert (H2 : find everyone_marked = []) by (vm_compute; reflexivity).
  split; [exact H1|]. split; [exact H2|].
  exact (proj1 (idle_service_touches_nothing calm_world
                  {| test := false; test_email := None; interval := 60 |} 3
                  everyone_marked H1 H2)).
Defined.

(** ** The connection *)

Lemma loop_never_connects w secs fuel st :
  grows (fun evs => count_events is_connect evs = 0) (trace st)
    (trace (while_true fuel (poll_cycle w secs) st).2).
Proof.
  apply while_true_grows; try done.
  - intros x y Hx Hy. rewrite count_events_app. lia.
  - intros u st'. unfold grows, process_user.
    destruct (truthy (dict_get u.2 "email")); cbn [negb];
      script_unfold; law_of_paths.
Qed.

(** X18.  A run connects to the store at most once, and only in service
    mode: a run whose command line does not select service mode makes no
    call to the store at all.  The first call a run makes to the store,
    if it makes any, is that connection, and when the connection does
    not succeed no query or update follows. *)
Theorem store_is_reached_through_one_connection w c fuel col :
  count_events is_connect (trace (program w c fuel (initial col)).2) <= 1
  /\ match store_calls (trace (program w c fuel (initial col)).2) with
     | [] => True
     | e :: rest =>
         is_connect e = true
         /\ ((forall uri db, e <> EvConnect uri db Done) -> rest = [])
     end
  /\ ((forall a, c = Parsed a -> test a = true) ->
      store_calls (trace (program w c fuel (initial col)).2) = []).
Proof.
  apply and_assoc. split.
  - destruct (environment_valid w) eqn:Hv.
    2: { destruct (program_invalid w c fuel (initial col) Hv) as (text & -> & _).
         cbn. split; [lia|done]. }
    rewrite program_valid by done. unfold main, parse_args.
    destruct c as [a| |]; monad_unfold; [|cbn; split; [lia|done]..].
    destruct (test a).
    { destruct (env_truthy (test_email a)); cbn [negb]; [|cbn; split; [lia|done]].
      script_unfold. cbn [initial tick trace store]. explore; cbn; split;
        first [lia | done]. }
    unfold connect. monad_unfold. cbn [initial tick trace store].
    destruct (io w 0); cbv beta iota; cbn [tick trace store snd];
      [|cbn; split; [lia|split; [done|done]]..].
    match goal with
    | |- context [while_true fuel ?b ?s] =>
        destruct (loop_never_connects w (interval a) fuel s) as (evs & E & C);
        destruct (while_true fuel b s) as [[[]|[code| |msg]|] st2]
    end; cbn [snd trace main_handlers] in *; monad_unfold; cbn [snd trace];
      rewrite E, ?count_events_app, C; cbn;
      (split; [lia|]); (split; [done|]); intros H; exfalso; eapply H; reflexivity.
  - intros Hmode. destruct (environment_valid w) eqn:Hv.
    2: { by destruct (program_invalid w c fuel (initial col) Hv) as (text & -> & _). }
    rewrite program_valid by done. unfold main, parse_args.
    destruct c as [a| |]; monad_unfold; [|done..].
    rewrite (Hmode a eq_refl).
    destruct (env_truthy (test_email a)); cbn [negb]; [|done].
    script_unfold. cbn [initial tick trace store]. explore; reflexivity.
Qed.
